(** * Cobalt: the tool-calling loop, its parser and its sandboxes

    A shallow embedding of the parts of [cobalt/agent.py], [cobalt/tools.py]
    and [cobalt/workspace.py] that the specification talks about, and the
    properties proved of them; then more of the same files, the word wrap
    of [cobalt/ui.py] and the provider switch of [cobalt/cli.py].

    Conventions.
    - In [Json], [Agent] and [Tools] a Python [str] is the Stdlib [string] of
      its UTF-8 bytes.  Every delimiter those functions look for (braces,
      quotes, back-ticks, marker tokens, blanks) is ASCII, and no byte of a
      multi-byte UTF-8 sequence is an ASCII byte, so scanning bytes finds
      the delimiters where scanning code points does.  Case folding and
      white space are the ASCII ones.
    - In [Workspace], where encodings are the subject, a [str] is a list of
      code points and the content of a file is a [string] of bytes.
    - Python exceptions are values of a result type; [try]/[except] is a
      [match].  The outside world (model endpoint, spawned processes) is
      an explicit parameter. *)

From Stdlib Require Import ZArith Ascii String List Lia Bool.
From Stdlib Require Import Numbers.DecimalString.
From stdpp Require Import gmap strings list.

Local Open Scope string_scope.
Local Open Scope list_scope.
Local Open Scope Z_scope.
Local Set Warnings "-register-all".

(** stdpp keeps [String.append] folded; the proofs below compute with it. *)
#[local] Arguments String.append (s1 s2)%_string_scope : simpl nomatch.

(* ================================================================== *)
(** * Text: the [str] methods the sources use *)
(* ================================================================== *)

Module Text.

Definition nl : ascii := "010"%char.
Definition tab : ascii := "009"%char.
Definition cr : ascii := "013"%char.
Definition dquote : ascii := "034"%char.
Definition bslash : ascii := "092"%char.

Definition chr (c : ascii) : string := String c "".

Definition NL : string := chr nl.

(** [s[n:]] *)
Fixpoint drop (n : nat) (s : string) : string :=
  match n, s with
  | O, _ => s
  | S _, "" => ""
  | S k, String _ s' => drop k s'
  end.

(** [s.startswith(p)] *)
Fixpoint startswith (p s : string) : bool :=
  match p, s with
  | "", _ => true
  | String _ _, "" => false
  | String a p', String b s' => Ascii.eqb a b && startswith p' s'
  end.

(** [sub in s] *)
Fixpoint contains (sub s : string) : bool :=
  startswith sub s ||
  match s with
  | "" => false
  | String _ s' => contains sub s'
  end.

(** [s.count(c)] for a one-character [c] *)
Fixpoint count_char (c : ascii) (s : string) : nat :=
  match s with
  | "" => O
  | String a s' => (if Ascii.eqb a c then 1 else 0)%nat + count_char c s'
  end.

(** [c * n] *)
Fixpoint repeat_char (c : ascii) (n : nat) : string :=
  match n with
  | O => ""
  | S k => String c (repeat_char c k)
  end.

Definition code (c : ascii) : N := N_of_ascii c.

(** [str.lower], on the ASCII letters. *)
Definition lower_char (c : ascii) : ascii :=
  if ((65 <=? code c) && (code c <=? 90))%N then ascii_of_N (code c + 32) else c.

Fixpoint lower (s : string) : string :=
  match s with
  | "" => ""
  | String c s' => String (lower_char c) (lower s')
  end.

(** [str.isspace] on one ASCII character: TAB, LF, VT, FF, CR,
    FS, GS, RS, US and SPACE. *)
Definition is_space (c : ascii) : bool :=
  (((9 <=? code c) && (code c <=? 13)) || ((28 <=? code c) && (code c <=? 32)))%N.

Fixpoint lstrip (s : string) : string :=
  match s with
  | "" => ""
  | String c s' => if is_space c then lstrip s' else s
  end.

Fixpoint rstrip (s : string) : string :=
  match s with
  | "" => ""
  | String c s' =>
      match rstrip s' with
      | "" => if is_space c then "" else chr c
      | r => String c r
      end
  end.

(** [s.strip()] *)
Definition strip (s : string) : string := rstrip (lstrip s).

(** [s.split(sep)] for a non-empty [sep]: the pieces between the
    occurrences of [sep], found left to right without overlap.  [skip]
    counts the characters of a found occurrence still to be passed over and
    [cur] is the piece being collected. *)
Fixpoint split_go (sep s : string) (skip : nat) (cur : string) : list string :=
  match s with
  | "" => [cur]
  | String c s' =>
      match skip with
      | S k => split_go sep s' k cur
      | O =>
          if startswith sep s
          then cur :: split_go sep s' (String.length sep - 1) ""
          else split_go sep s' O (cur +:+ chr c)
      end
  end.

Definition split (sep s : string) : list string := split_go sep s O "".

(** [pieces[-1]] and [pieces[0]] of a [split], which is never empty. *)
Definition last_piece (pieces : list string) : string := List.last pieces "".
Definition first_piece (pieces : list string) : string := List.hd "" pieces.

(** [sep.join(items)] *)
Fixpoint join (sep : string) (items : list string) : string :=
  match items with
  | [] => ""
  | [x] => x
  | x :: rest => x +:+ sep +:+ join sep rest
  end.

(** [str.split()] with no argument: maximal runs of non-blank characters. *)
Fixpoint words_go (s : string) (cur : string) : list string :=
  match s with
  | "" => match cur with "" => [] | _ => [cur] end
  | String c s' =>
      if is_space c
      then match cur with "" => words_go s' "" | _ => cur :: words_go s' "" end
      else words_go s' (cur +:+ chr c)
  end.

Definition words (s : string) : list string := words_go s "".

(** [str(n)] for an integer. *)
Definition str_of_Z (z : Z) : string := NilZero.string_of_int (Z.to_int z).

(** Writing aid for examples: a text with every apostrophe turned into a
    double quote. *)
Fixpoint dq (s : string) : string :=
  match s with
  | "" => ""
  | String c s' => String (if Ascii.eqb c "'"%char then dquote else c) (dq s')
  end.

End Text.

(* ================================================================== *)
(** * UTF-8 *)
(* ================================================================== *)

Module Utf8.
Import Text.

Definition byte (z : Z) : ascii := ascii_of_N (Z.to_N z).
Definition val (c : ascii) : Z := Z.of_N (N_of_ascii c).

(** The bytes of one code point, by the UTF-8 bit layout. *)
Definition encode_cp (c : Z) : string :=
  if c <? 128 then chr (byte c)
  else if c <? 2048 then
    String (byte (192 + c / 64)) (chr (byte (128 + c mod 64)))
  else if c <? 65536 then
    String (byte (224 + c / 4096))
      (String (byte (128 + (c / 64) mod 64)) (chr (byte (128 + c mod 64))))
  else
    String (byte (240 + c / 262144))
      (String (byte (128 + (c / 4096) mod 64))
         (String (byte (128 + (c / 64) mod 64)) (chr (byte (128 + c mod 64))))).

(** Code points a [str] can hold, and those UTF-8 can encode (no
    surrogates). *)
Definition is_codepoint (c : Z) : bool := (0 <=? c) && (c <=? 1114111).
Definition is_surrogate (c : Z) : bool := (55296 <=? c) && (c <=? 57343).
Definition is_scalar (c : Z) : bool := is_codepoint c && negb (is_surrogate c).

(** [s.encode('utf-8')]; [None] is [UnicodeEncodeError]. *)
Fixpoint encode (s : list Z) : option string :=
  match s with
  | [] => Some ""
  | c :: s' =>
      if is_scalar c
      then match encode s' with
           | Some b => Some (encode_cp c +:+ b)
           | None => None
           end
      else None
  end.

Definition is_cont (b : ascii) : bool := (128 <=? val b) && (val b <? 192).

Definition push (c : Z) (r : option (list Z)) : option (list Z) :=
  match r with
  | Some l => Some (c :: l)
  | None => None
  end.

(** [b.decode('utf-8')], strict; [None] is [UnicodeDecodeError].  Over-long
    forms, surrogates and values above U+10FFFF are refused. *)
Fixpoint decode (b : string) : option (list Z) :=
  match b with
  | "" => Some []
  | String b0 r0 =>
      if val b0 <? 128 then push (val b0) (decode r0)
      else if val b0 <? 192 then None
      else if val b0 <? 224 then
        match r0 with
        | String b1 r1 =>
            let c := (val b0 - 192) * 64 + (val b1 - 128) in
            if is_cont b1 && (128 <=? c) then push c (decode r1) else None
        | _ => None
        end
      else if val b0 <? 240 then
        match r0 with
        | String b1 (String b2 r2) =>
            let c := (val b0 - 224) * 4096 + (val b1 - 128) * 64 + (val b2 - 128) in
            if is_cont b1 && is_cont b2 && (2048 <=? c) && negb (is_surrogate c)
            then push c (decode r2) else None
        | _ => None
        end
      else if val b0 <? 248 then
        match r0 with
        | String b1 (String b2 (String b3 r3)) =>
            let c := (val b0 - 240) * 262144 + (val b1 - 128) * 4096
                     + (val b2 - 128) * 64 + (val b3 - 128) in
            if is_cont b1 && is_cont b2 && is_cont b3
               && (65536 <=? c) && (c <=? 1114111)
            then push c (decode r3) else None
        | _ => None
        end
      else None
  end.

(** [b.decode('latin-1')]: one code point per byte; it cannot fail. *)
Fixpoint decode_latin1 (b : string) : list Z :=
  match b with
  | "" => []
  | String c r => val c :: decode_latin1 r
  end.

End Utf8.

(* ================================================================== *)
(** * Json: the values and [json.loads] *)
(* ================================================================== *)

Module Json.
Import Text.

(** What [json.loads] returns.  A float keeps its lexeme; a [dict] is the
    list of its items in insertion order, keys unique. *)
Inductive json : Type :=
| JNull
| JBool (b : bool)
| JInt (n : Z)
| JFloat (lexeme : string)
| JStr (s : string)
| JArr (items : list json)
| JObj (members : list (string * json)).

Definition dict : Type := list (string * json).

(** [d[k] = v] *)
Fixpoint dict_set (k : string) (v : json) (d : dict) : dict :=
  match d with
  | [] => [(k, v)]
  | (k', v') :: r =>
      if String.eqb k k' then (k, v) :: r else (k', v') :: dict_set k v r
  end.

(** [d.get(k)] *)
Fixpoint dict_get (k : string) (d : dict) : option json :=
  match d with
  | [] => None
  | (k', v) :: r => if String.eqb k k' then Some v else dict_get k r
  end.

(** [d.get(k, default)] *)
Definition dict_get_default (k : string) (default : json) (d : dict) : json :=
  match dict_get k d with
  | Some v => v
  | None => default
  end.

(** [k in d] *)
Definition dict_has (k : string) (d : dict) : bool :=
  match dict_get k d with
  | Some _ => true
  | None => false
  end.

(** ** Tokens *)

Inductive token : Type :=
| TLBrace | TRBrace | TLBracket | TRBracket | TColon | TComma
| TScalar (v : json).

Definition is_json_ws (c : ascii) : bool :=
  Ascii.eqb c " "%char || Ascii.eqb c tab || Ascii.eqb c nl || Ascii.eqb c cr.

Definition is_digit (c : ascii) : bool := ((48 <=? code c) && (code c <=? 57))%N.

Definition hexval (c : ascii) : option Z :=
  let n := Z.of_N (code c) in
  if (48 <=? n) && (n <=? 57) then Some (n - 48)
  else if (65 <=? n) && (n <=? 70) then Some (n - 55)
  else if (97 <=? n) && (n <=? 102) then Some (n - 87)
  else None.

Definition hex4 (a b c d : ascii) : option Z :=
  match hexval a, hexval b, hexval c, hexval d with
  | Some x, Some y, Some z, Some w => Some (((x * 16 + y) * 16 + z) * 16 + w)
  | _, _, _, _ => None
  end.

(** The one-character escapes of a JSON string. *)
Definition simple_escape (e : ascii) : option ascii :=
  if Ascii.eqb e dquote then Some dquote
  else if Ascii.eqb e bslash then Some bslash
  else if Ascii.eqb e "/"%char then Some "/"%char
  else if Ascii.eqb e "b"%char then Some "008"%char
  else if Ascii.eqb e "f"%char then Some "012"%char
  else if Ascii.eqb e "n"%char then Some nl
  else if Ascii.eqb e "r"%char then Some cr
  else if Ascii.eqb e "t"%char then Some tab
  else None.

Definition emit (piece : string) (n : nat) (r : option (string * nat)) : option (string * nat) :=
  match r with
  | Some (s, m) => Some (piece +:+ s, (n + m)%nat)
  | None => None
  end.

(** The text of a string literal after its opening quote: the decoded
    content and the number of characters read, closing quote included.
    Control characters are refused (the decoder is strict); a [\u] escape
    gives the UTF-8 bytes of its code point, a surrogate pair one code
    point. *)
Fixpoint lex_string (s : string) : option (string * nat) :=
  match s with
  | "" => None
  | String c s1 =>
      if Ascii.eqb c dquote then Some ("", 1%nat)
      else if Ascii.eqb c bslash then
        match s1 with
        | "" => None
        | String e s2 =>
            if Ascii.eqb e "u"%char then
              match s2 with
              | String h1 (String h2 (String h3 (String h4 s6))) =>
                  match hex4 h1 h2 h3 h4 with
                  | None => None
                  | Some u =>
                      let single := emit (Utf8.encode_cp u) 6 (lex_string s6) in
                      if (55296 <=? u) && (u <=? 56319) then
                        match s6 with
                        | String b' (String u' (String g1 (String g2 (String g3 (String g4 s12))))) =>
                            if Ascii.eqb b' bslash && Ascii.eqb u' "u"%char then
                              match hex4 g1 g2 g3 g4 with
                              | None => None
                              | Some u2 =>
                                  if (56320 <=? u2) && (u2 <=? 57343)
                                  then emit (Utf8.encode_cp
                                               (65536 + (u - 55296) * 1024 + (u2 - 56320)))
                                            12 (lex_string s12)
                                  else single
                              end
                            else single
                        | _ => single
                        end
                      else single
                  end
              | _ => None
              end
            else
              match simple_escape e with
              | Some ch => emit (chr ch) 2 (lex_string s2)
              | None => None
              end
        end
      else if (code c <? 32)%N then None
      else emit (chr c) 1 (lex_string s1)
  end.

(** The longest prefix of decimal digits. *)
Fixpoint take_digits (s : string) : string :=
  match s with
  | "" => ""
  | String c s' => if is_digit c then String c (take_digits s') else ""
  end.

Fixpoint Z_of_digits (acc : Z) (s : string) : Z :=
  match s with
  | "" => acc
  | String c s' => Z_of_digits (acc * 10 + (Z.of_N (code c) - 48)) s'
  end.

(** A number at the head of [s], as the decoder reads it: an optional
    minus sign, then 0 or a digit string with no leading zero, then an
    optional fraction (a dot and at least one digit), then an optional
    exponent (e or E, an optional sign, at least one digit). *)
Definition lex_number (s : string) : option (json * nat) :=
  let '(sign, s1) :=
    match s with
    | String "-" r => ("-", r)
    | _ => ("", s)
    end in
  match s1 with
  | "" => None
  | String d r =>
      if is_digit d then
        let int_part := if Ascii.eqb d "0"%char then "0" else String d (take_digits r) in
        let s2 := drop (String.length int_part) s1 in
        let frac :=
          match s2 with
          | String "." r2 =>
              match take_digits r2 with
              | "" => ""
              | ds => String "." ds
              end
          | _ => ""
          end in
        let s3 := drop (String.length frac) s2 in
        let exp :=
          match s3 with
          | String e r3 =>
              if Ascii.eqb e "e"%char || Ascii.eqb e "E"%char then
                let '(esign, r4) :=
                  match r3 with
                  | String "+" r' => ("+", r')
                  | String "-" r' => ("-", r')
                  | _ => ("", r3)
                  end in
                match take_digits r4 with
                | "" => ""
                | ds => String e (esign +:+ ds)
                end
              else ""
          | "" => ""
          end in
        let lexeme := sign +:+ int_part +:+ frac +:+ exp in
        let value :=
          match frac, exp with
          | "", "" =>
              JInt (if String.eqb sign "-" then - Z_of_digits 0 int_part
                    else Z_of_digits 0 int_part)
          | _, _ => JFloat lexeme
          end in
        Some (value, String.length lexeme)
      else None
  end.

(** One token at the head of [s] (not a blank) and its length. *)
Definition lex_token (s : string) : option (token * nat) :=
  match s with
  | "" => None
  | String c s' =>
      if Ascii.eqb c "{"%char then Some (TLBrace, 1%nat)
      else if Ascii.eqb c "}"%char then Some (TRBrace, 1%nat)
      else if Ascii.eqb c "["%char then Some (TLBracket, 1%nat)
      else if Ascii.eqb c "]"%char then Some (TRBracket, 1%nat)
      else if Ascii.eqb c ":"%char then Some (TColon, 1%nat)
      else if Ascii.eqb c ","%char then Some (TComma, 1%nat)
      else if Ascii.eqb c dquote then
        match lex_string s' with
        | Some (str, n) => Some (TScalar (JStr str), S n)
        | None => None
        end
      else if startswith "null" s then Some (TScalar JNull, 4%nat)
      else if startswith "true" s then Some (TScalar (JBool true), 4%nat)
      else if startswith "false" s then Some (TScalar (JBool false), 5%nat)
      else
        match lex_number s with
        | Some r => Some (TScalar (fst r), snd r)
        | None =>
            if startswith "NaN" s then Some (TScalar (JFloat "NaN"), 3%nat)
            else if startswith "Infinity" s then Some (TScalar (JFloat "Infinity"), 8%nat)
            else if startswith "-Infinity" s then Some (TScalar (JFloat "-Infinity"), 9%nat)
            else None
        end
  end.

(** All tokens of [s]; [skip] counts the characters of the last token still
    to be passed over. *)
Fixpoint tokens_go (s : string) (skip : nat) : option (list token) :=
  match s with
  | "" => Some []
  | String c s' =>
      match skip with
      | S k => tokens_go s' k
      | O =>
          if is_json_ws c then tokens_go s' O
          else
            match lex_token s with
            | None => None
            | Some (t, n) =>
                match tokens_go s' (n - 1) with
                | Some ts => Some (t :: ts)
                | None => None
                end
            end
      end
  end.

Definition tokens (s : string) : option (list token) := tokens_go s O.

(** ** The grammar, as a pushdown automaton over the tokens *)

(** An open container: the items read so far; for an object also the key
    whose value is awaited. *)
Inductive frame : Type :=
| FArr (items : list json)
| FObj (members : dict) (key : string).

Inductive expect : Type :=
| EValue          (* a value *)
| EValueOrClose   (* just after '[' *)
| EKeyOrClose     (* just after '{' *)
| EKey            (* after ',' in an object *)
| EColon
| ECommaOrClose   (* after an item *)
| EDone (v : json).

(** A finished value goes to the innermost open container, or is the
    result. *)
Definition push_value (v : json) (stack : list frame) : list frame * expect :=
  match stack with
  | [] => ([], EDone v)
  | FArr items :: st => (FArr (items ++ [v]) :: st, ECommaOrClose)
  | FObj members key :: st => (FObj (dict_set key v members) key :: st, ECommaOrClose)
  end.

Definition open_value (t : token) (stack : list frame) : option (list frame * expect) :=
  match t with
  | TScalar v => Some (push_value v stack)
  | TLBracket => Some (FArr [] :: stack, EValueOrClose)
  | TLBrace => Some (FObj [] "" :: stack, EKeyOrClose)
  | _ => None
  end.

Definition set_key (k : string) (stack : list frame) : option (list frame * expect) :=
  match stack with
  | FObj members _ :: st => Some (FObj members k :: st, EColon)
  | _ => None
  end.

Definition step (stack : list frame) (e : expect) (t : token) : option (list frame * expect) :=
  match e with
  | EValue => open_value t stack
  | EValueOrClose =>
      match t, stack with
      | TRBracket, FArr items :: st => Some (push_value (JArr items) st)
      | _, _ => open_value t stack
      end
  | EKeyOrClose =>
      match t, stack with
      | TRBrace, FObj members _ :: st => Some (push_value (JObj members) st)
      | TScalar (JStr k), _ => set_key k stack
      | _, _ => None
      end
  | EKey =>
      match t with
      | TScalar (JStr k) => set_key k stack
      | _ => None
      end
  | EColon =>
      match t with
      | TColon => Some (stack, EValue)
      | _ => None
      end
  | ECommaOrClose =>
      match t, stack with
      | TComma, FArr _ :: _ => Some (stack, EValue)
      | TRBracket, FArr items :: st => Some (push_value (JArr items) st)
      | TComma, FObj _ _ :: _ => Some (stack, EKey)
      | TRBrace, FObj members _ :: st => Some (push_value (JObj members) st)
      | _, _ => None
      end
  | EDone _ => None
  end.

Fixpoint run (ts : list token) (stack : list frame) (e : expect) : option json :=
  match ts with
  | [] =>
      match stack, e with
      | [], EDone v => Some v
      | _, _ => None
      end
  | t :: ts' =>
      match step stack e t with
      | Some (stack', e') => run ts' stack' e'
      | None => None
      end
  end.

(** [json.loads(s)]; [None] is [JSONDecodeError]. *)
Definition loads (s : string) : option json :=
  match tokens s with
  | Some ts => run ts [] EValue
  | None => None
  end.

End Json.

(* ================================================================== *)
(** * Agent: [cobalt/agent.py] *)
(* ================================================================== *)

Module Agent.
Import Text Json.

(** [tools.ToolCall]: a dataclass, its fields hold whatever the reply's
    JSON gave. *)
Record ToolCall : Type := mkToolCall {
  tool_name : json;
  parameters : json;
  reasoning : json
}.

(** The test and the constructor call shared by every tier:
    [isinstance(data, dict) and 'tool' in data], then
    [ToolCall(data['tool'], data.get('parameters', {}), data.get('reason', ''))]. *)
Definition tool_call_of (data : json) : option ToolCall :=
  match data with
  | JObj d =>
      match dict_get "tool" d with
      | Some t =>
          Some {| tool_name := t;
                  parameters := dict_get_default "parameters" (JObj []) d;
                  reasoning := dict_get_default "reason" (JStr "") d |}
      | None => None
      end
  | _ => None
  end.

(** The body of each [try]: parse, test, append; a text that does not parse
    leaves the list as it is. *)
Definition append_parsed (text : string) (tool_calls : list ToolCall) : list ToolCall :=
  match loads text with
  | Some data =>
      match tool_call_of data with
      | Some tc => tool_calls ++ [tc]
      | None => tool_calls
      end
  | None => tool_calls
  end.

(** ** Method 1: fenced blocks

    [re.findall(r'```json\s*\n(.*?)\n```', response, re.DOTALL | re.IGNORECASE)] *)

Fixpoint startswith_ci (p s : string) : bool :=
  match p, s with
  | "", _ => true
  | String _ _, "" => false
  | String a p', String b s' =>
      Ascii.eqb (lower_char a) (lower_char b) && startswith_ci p' s'
  end.

Definition fence : string := "```".
Definition fence_open : string := "```json".
Definition fence_close : string := NL +:+ fence.

(** The lazy group and the closing fence: the shortest text up to a line
    break followed by three back-ticks, with the number of characters
    matched, fence included. *)
Fixpoint lazy_body (s : string) : option (string * nat) :=
  if startswith fence_close s then Some ("", 4%nat)
  else
    match s with
    | "" => None
    | String c s' =>
        match lazy_body s' with
        | Some (g, n) => Some (String c g, S n)
        | None => None
        end
    end.

(** After the opening fence: the greedy blank run gives back characters
    until the one it stops before is a line break, the last line break of the run
    first. *)
Fixpoint after_open (s : string) : option (string * nat) :=
  match s with
  | "" => None
  | String c s' =>
      if is_space c then
        match after_open s' with
        | Some (g, n) => Some (g, S n)
        | None =>
            if Ascii.eqb c nl then
              match lazy_body s' with
              | Some (g, n) => Some (g, S n)
              | None => None
              end
            else None
        end
      else None
  end.

(** A match of the whole pattern at the head of [s]: the group and the
    length of the match. *)
Definition match_block (s : string) : option (string * nat) :=
  if startswith_ci fence_open s then
    match after_open (drop 7 s) with
    | Some (g, n) => Some (g, (7 + n)%nat)
    | None => None
    end
  else None.

Fixpoint findall_go (s : string) (skip : nat) : list string :=
  match s with
  | "" => []
  | String _ s' =>
      match skip with
      | S k => findall_go s' k
      | O =>
          match match_block s with
          | Some (g, n) => g :: findall_go s' (n - 1)
          | None => findall_go s' O
          end
      end
  end.

Definition json_blocks (response : string) : list string := findall_go response O.

Definition method1 (response : string) (tool_calls : list ToolCall) : list ToolCall :=
  fold_left (fun acc block => append_parsed (strip block) acc)
            (json_blocks response) tool_calls.

(** ** Method 2: marker tokens *)

Definition special_patterns : list string :=
  ["<|constrain|>json<|message|>"; "<|message|>"].

(** [re.finditer(pattern, response)] for a literal pattern; each match is
    given by the text that follows it, [response[match.end():]]. *)
Fixpoint finditer_go (pat s : string) (skip : nat) : list string :=
  match s with
  | "" => []
  | String _ s' =>
      match skip with
      | S k => finditer_go pat s' k
      | O =>
          if startswith pat s
          then drop (String.length pat) s :: finditer_go pat s' (String.length pat - 1)
          else finditer_go pat s' O
      end
  end.

Definition finditer (pat response : string) : list string := finditer_go pat response O.

(** [while ... response[start] in ' \n\t': start += 1] *)
Fixpoint skip_blanks (s : string) : string :=
  match s with
  | "" => ""
  | String c s' =>
      if Ascii.eqb c " "%char || Ascii.eqb c nl || Ascii.eqb c tab
      then skip_blanks s' else s
  end.

(** The inner loop of methods 2 and 3: walk from an opening brace, counting
    depth; the text up to the brace that brings the count back to zero, if
    the end of the reply does not come first. *)
Fixpoint balanced (s : string) (brace_count : Z) : option string :=
  match s with
  | "" => None
  | String c s' =>
      let continue_with (n : Z) :=
        match balanced s' n with
        | Some r => Some (String c r)
        | None => None
        end in
      if Ascii.eqb c "{"%char then continue_with (brace_count + 1)
      else if Ascii.eqb c "}"%char then
        if brace_count - 1 =? 0 then Some (chr c) else continue_with (brace_count - 1)
      else continue_with brace_count
  end.

(** One marker match; [rest] is the reply from [match.end()] on. *)
Definition after_marker (rest : string) (tool_calls : list ToolCall) : list ToolCall :=
  match rest with
  | "" => tool_calls
  | _ =>
      match skip_blanks rest with
      | String "{" _ as obj =>
          match balanced obj 0 with
          | Some json_str => append_parsed json_str tool_calls
          | None => tool_calls
          end
      | _ => tool_calls
      end
  end.

Fixpoint method2_patterns (patterns : list string) (response : string)
    (tool_calls : list ToolCall) : list ToolCall :=
  match patterns with
  | [] => tool_calls
  | pattern :: more =>
      let tool_calls' :=
        fold_left (fun acc rest => after_marker rest acc) (finditer pattern response) tool_calls in
      match tool_calls' with
      | [] => method2_patterns more response tool_calls'
      | _ => tool_calls'
      end
  end.

Definition method2 (response : string) (tool_calls : list ToolCall) : list ToolCall :=
  method2_patterns special_patterns response tool_calls.

(** ** Method 3: any object with a [tool] key *)

Fixpoint method3 (s : string) (tool_calls : list ToolCall) : list ToolCall :=
  match s with
  | "" => tool_calls
  | String c s' =>
      let tool_calls' :=
        if Ascii.eqb c "{"%char then
          match balanced s 0 with
          | Some obj => append_parsed obj tool_calls
          | None => tool_calls
          end
        else tool_calls in
      method3 s' tool_calls'
  end.

(** [CobaltAgent._extract_tool_calls] *)
Definition _extract_tool_calls (response : string) : list ToolCall :=
  let tool_calls := method1 response [] in
  let tool_calls :=
    match tool_calls with
    | [] => method2 response tool_calls
    | _ => tool_calls
    end in
  let tool_calls :=
    match tool_calls with
    | [] => method3 response tool_calls
    | _ => tool_calls
    end in
  tool_calls.

(** The three tiers on their own. *)
Definition tier1 (response : string) : list ToolCall := method1 response [].
Definition tier2 (response : string) : list ToolCall := method2 response [].
Definition tier3 (response : string) : list ToolCall := method3 response [].

(** ** The caller's repair of a truncated object ([execute_task]) *)

Definition recovery_tags : list string :=
  ["<|constrain|>json<|message|>"; "<|message|>"].

(** [if json_part.count('{') > json_part.count('}'): json_part += '}' * (...)] *)
Definition close_braces (json_part : string) : string :=
  let opens := count_char "{"%char json_part in
  let closes := count_char "}"%char json_part in
  if (closes <? opens)%nat
  then json_part +:+ repeat_char "}"%char (opens - closes)
  else json_part.

(** [json_part] as [execute_task] prepares it for one tag. *)
Definition repaired_part (tag ai_response : string) : string :=
  let json_part := strip (last_piece (split tag ai_response)) in
  let json_part := first_piece (split "<|" json_part) in
  close_braces json_part.

(** [for tag in [...]: if tag in ai_response: ... break]: the first tag whose
    repaired text parses to an object with a [tool] key replaces
    [tool_calls]. *)
Fixpoint recover_go (tags : list string) (ai_response : string)
    (tool_calls : list ToolCall) : list ToolCall :=
  match tags with
  | [] => tool_calls
  | tag :: more =>
      if contains tag ai_response then
        match loads (repaired_part tag ai_response) with
        | Some data =>
            match tool_call_of data with
            | Some tc => [tc]
            | None => recover_go more ai_response tool_calls
            end
        | None => recover_go more ai_response tool_calls
        end
      else recover_go more ai_response tool_calls
  end.

Definition has_marker (ai_response : string) : bool :=
  contains "<|constrain|>json<|message|>" ai_response || contains "<|message|>" ai_response.

Definition recover (ai_response : string) (tool_calls : list ToolCall) : list ToolCall :=
  recover_go recovery_tags ai_response tool_calls.

Definition done_words : list string :=
  ["done"; "completed"; "finished"; "success"; "task completed"].

(** [any(word in ai_response.lower() for word in done_words)] *)
Definition says_done (ai_response : string) : bool :=
  existsb (fun word => contains word (lower ai_response)) done_words.

(** ** [CobaltAgent.execute_task]

    The model endpoint and the execution of one tool call (registry lookup,
    confirmation prompt, the tool itself) act on a world the loop only
    threads through.  Of what the method prints, the log keeps the turn
    header and the calls to the [ui] object that carry a fixed text;
    separators, the debug dump of the reply and the latency line are left
    out. *)

Record Message : Type := mkMessage { role : string; content : string }.

(** [llm.LLMResponse], the two fields the loop reads. *)
Record LLMResponse : Type := mkResponse { success : bool; response_content : string }.

Inductive ui_event : Type :=
| Turn (turn max_turns : Z)       (* print(f"\n[Turn {turn}/{max_turns}]") *)
| Bold (text : string)            (* ui.print_bold *)
| Info (text : string)            (* ui.print_info *)
| Success (text : string)         (* ui.print_success *)
| Warning (text : string)         (* ui.print_warning *)
| Error (text : string)           (* ui.print_error *)
| Recovered (tool : json).        (* print(f"\nRecovered tool call: {data['tool']}\n") *)

(** How the [for] loop was left. *)
Inductive loop_exit : Type :=
| RangeExhausted           (* the range ran out *)
| Break (turn : Z).        (* a [break] in that turn *)

Section ExecuteTask.

Variable World : Type.
(** [self.llm.generate(messages, ...)] *)
Variable llm_generate : World -> list Message -> World * LLMResponse.
(** [self._exec_tool(tc, i, len(tool_calls))] *)
Variable _exec_tool : World -> ToolCall -> Z -> Z -> World * string.
(** [self._get_system_prompt()] and [self.config.workspace] *)
Variable system_prompt : string.
Variable workspace_name : string.
(** [str(value)], as an f-string formats [tc.tool_name] *)
Variable format_value : json -> string.

Record state : Type := mkState {
  world : World;
  messages : list Message;
  ui : list ui_event
}.

Definition log (e : ui_event) (st : state) : state :=
  {| world := world st; messages := messages st; ui := ui st ++ [e] |}.

Definition append_message (m : Message) (st : state) : state :=
  {| world := world st; messages := messages st ++ [m]; ui := ui st |}.

Definition set_world (w : World) (st : state) : state :=
  {| world := w; messages := messages st; ui := ui st |}.

(** [for i, tc in enumerate(tool_calls, 1): ... results.append(...)] *)
Fixpoint exec_all (tool_calls : list ToolCall) (i total : Z) (w : World)
    (results : list string) : World * list string :=
  match tool_calls with
  | [] => (w, results)
  | tc :: more =>
      let '(w', result) := _exec_tool w tc i total in
      let results' :=
        match result with
        | "" => results
        | _ => results ++ [format_value (tool_name tc) +:+ ": " +:+ result]
        end in
      exec_all more (i + 1) total w' results'
  end.

(** The [if not tool_calls:] block.  [None] is a [break]; otherwise the
    calls the turn goes on with. *)
Definition no_tool_calls_block (ai_response : string) (tool_calls : list ToolCall)
    (st : state) : state * option (list ToolCall) :=
  match tool_calls with
  | [] =>
      if has_marker ai_response then
        let tool_calls' := recover ai_response tool_calls in
        let st :=
          match tool_calls' with
          | tc :: _ => log (Recovered (tool_name tc)) st
          | [] => st
          end in
        if says_done ai_response
        then (log (Success "Task completed!") st, None)
        else (log (Warning "No tool calls detected. Model may not understand the format.") st,
              None)
      else (st, Some tool_calls)
  | _ => (st, Some tool_calls)
  end.

(** One pass of the loop body; the boolean tells whether the loop goes
    on. *)
Definition turn_body (max_turns turn : Z) (st : state) : state * bool :=
  let st := log (Turn turn max_turns) st in
  let st := log (Info "Requesting AI action...") st in
  let '(w, response) := llm_generate (world st) (messages st) in
  let st := set_world w st in
  if negb (success response) then (log (Error "LLM failed") st, false)
  else
    let ai_response := response_content response in
    let st := append_message (mkMessage "assistant" ai_response) st in
    let tool_calls := _extract_tool_calls ai_response in
    match no_tool_calls_block ai_response tool_calls st with
    | (st, None) => (st, false)
    | (st, Some tool_calls) =>
        let '(w, results) :=
          exec_all tool_calls 1 (Z.of_nat (List.length tool_calls)) (world st) [] in
        let st := set_world w st in
        match results with
        | [] => (st, false)
        | _ =>
            let results_msg :=
              "Results:\n" +:+ join "\n" results
              +:+ "\n\nContinue or say 'Task completed'." in
            (append_message (mkMessage "user" results_msg) st, true)
        end
    end.

(** [for turn in range(1, max_turns + 1)], [remaining] turns from [turn]
    on. *)
Fixpoint turn_loop (remaining : nat) (max_turns turn : Z) (st : state) : state * loop_exit :=
  match remaining with
  | O => (st, RangeExhausted)
  | S k =>
      let '(st', goes_on) := turn_body max_turns turn st in
      if goes_on then turn_loop k max_turns (turn + 1) st' else (st', Break turn)
  end.

Definition initial_state (task : string) (w : World) : state :=
  {| world := w;
     messages :=
       [ mkMessage "system" system_prompt;
         mkMessage "user" ("Task: " +:+ task +:+ "\nWorkspace: " +:+ workspace_name) ];
     ui := [ Bold "AGENT EXECUTION STARTED"; Bold ("Task: " +:+ task) ] |}.

Definition execute_task (task : string) (max_turns : Z) (w : World) : state * loop_exit :=
  let '(st, how) := turn_loop (Z.to_nat max_turns) max_turns 1 (initial_state task w) in
  (log (Bold "AGENT EXECUTION COMPLETED") st, how).

(** The default of the [max_turns] parameter. *)
Definition default_max_turns : Z := 10.

End ExecuteTask.

End Agent.

(* ================================================================== *)
(** * Tools: [RunCommandTool] of [cobalt/tools.py] *)
(* ================================================================== *)

Module Tools.
Import Text.

Inductive meta : Type := MInt (n : Z) | MStr (s : string).

(** [tools.ToolResult]; [metadata] defaults to the empty mapping. *)
Record ToolResult : Type := mkResult {
  success : bool;
  output : string;
  error : option string;
  metadata : list (string * meta)
}.

Definition failure (message : string) : ToolResult :=
  {| success := false; output := ""; error := Some message; metadata := [] |}.

(** ** [shlex.split(command)]

    The POSIX-mode lexer with [whitespace_split] set and no comment
    characters, one character at a time: [state] is the lexer's state
    (blank, in a word, in a quote, after a backslash), [token] the word
    being built, [quoted] whether a quote took part in it, [escapedstate]
    the state a backslash returns to. *)

Inductive lexer_state : Type :=
| Blank                      (* ' ' *)
| Word                       (* 'a' *)
| Quote (q : ascii)          (* the quote character *)
| Escape.                    (* the escape character *)

Definition is_shlex_ws (c : ascii) : bool :=
  Ascii.eqb c " "%char || Ascii.eqb c tab || Ascii.eqb c cr || Ascii.eqb c nl.

Definition is_quote (c : ascii) : bool := Ascii.eqb c "'"%char || Ascii.eqb c dquote.

Definition has_token (token : string) (quoted : bool) : bool :=
  negb (String.eqb token "") || quoted.

Definition cons_token (token : string) (r : option (list string)) : option (list string) :=
  match r with
  | Some l => Some (token :: l)
  | None => None
  end.

(** [None] is the [ValueError] of an unclosed quote or a trailing
    backslash. *)
Fixpoint shlex_go (s : string) (state : lexer_state) (token : string) (quoted : bool)
    (escapedstate : lexer_state) : option (list string) :=
  match s with
  | "" =>
      match state with
      | Blank | Word => if has_token token quoted then Some [token] else Some []
      | Quote _ => None
      | Escape => None
      end
  | String c s' =>
      match state with
      | Blank =>
          if is_shlex_ws c then
            if has_token token quoted
            then cons_token token (shlex_go s' Blank "" false Blank)
            else shlex_go s' Blank token quoted escapedstate
          else if Ascii.eqb c bslash then shlex_go s' Escape token quoted Word
          else if is_quote c then shlex_go s' (Quote c) token quoted escapedstate
          else shlex_go s' Word (chr c) quoted escapedstate
      | Quote q =>
          if Ascii.eqb c q then shlex_go s' Word token true escapedstate
          else if Ascii.eqb c bslash && Ascii.eqb q dquote
          then shlex_go s' Escape token true (Quote q)
          else shlex_go s' (Quote q) (token +:+ chr c) true escapedstate
      | Escape =>
          let token :=
            match escapedstate with
            | Quote q =>
                if negb (Ascii.eqb c bslash) && negb (Ascii.eqb c q)
                then token +:+ chr bslash else token
            | _ => token
            end in
          shlex_go s' escapedstate (token +:+ chr c) quoted escapedstate
      | Word =>
          if is_shlex_ws c then
            if has_token token quoted
            then cons_token token (shlex_go s' Blank "" false Blank)
            else shlex_go s' Blank token quoted escapedstate
          else if is_quote c then shlex_go s' (Quote c) token quoted escapedstate
          else if Ascii.eqb c bslash then shlex_go s' Escape token quoted Word
          else shlex_go s' Word (token +:+ chr c) quoted escapedstate
      end
  end.

Definition shlex_split (command : string) : option (list string) :=
  shlex_go command Blank "" false Blank.

(** ** [subprocess.run] *)

(** What [subprocess.run(cmd_parts, capture_output=True, text=True,
    timeout=60, cwd=..., shell=False)] can do. *)
Inductive outcome : Type :=
| Completed (returncode : Z) (stdout stderr : string)
| TimeoutExpired
| FileNotFoundError
| OtherException (text : string).

(** A run of [execute]: it either returns without having spawned anything,
    or spawns one process and builds its result from the outcome. *)
Inductive run : Type :=
| Return (result : ToolResult)
| Spawn (cmd_parts : list string) (timeout : Z) (cwd : string)
        (continue_with : outcome -> ToolResult).

(** [self.allowed_commands] *)
Definition allowed_commands : list string :=
  ["python"; "python3"; "pip"; "pip3"; "node"; "npm"; "npx";
   "ls"; "dir"; "cat"; "type"; "echo"; "git"; "pytest"; "test"].

Definition or_default (s default : string) : string :=
  match s with
  | "" => default
  | _ => s
  end.

(** The code after [subprocess.run] and the three [except] clauses. *)
Definition result_of (base_command command reason : string) (o : outcome) : ToolResult :=
  match o with
  | Completed returncode stdout stderr =>
      let output :=
        match stderr with
        | "" => stdout
        | _ => stdout +:+ NL +:+ "[stderr]: " +:+ stderr
        end in
      {| success := returncode =? 0;
         output := or_default output "(no output)";
         error := if returncode =? 0 then None
                  else Some ("Command exited with code " +:+ str_of_Z returncode);
         metadata := [("returncode", MInt returncode); ("command", MStr command);
                      ("reason", MStr reason)] |}
  | TimeoutExpired => failure "Command timed out after 60 seconds"
  | FileNotFoundError => failure ("Command not found: " +:+ base_command)
  | OtherException text => failure ("Error running command: " +:+ text)
  end.

(** [try: cmd_parts = shlex.split(command)] [except: cmd_parts = command.split()] *)
Definition split_command (command : string) : list string :=
  match shlex_split command with
  | Some parts => parts
  | None => words command
  end.

(** [any(base_command.startswith(cmd) for cmd in self.allowed_commands)] *)
Definition is_allowed (base_command : string) : bool :=
  existsb (fun cmd => startswith cmd base_command) allowed_commands.

(** The error text of a refusal. *)
Definition refusal (base_command : string) : string :=
  "Command '" +:+ base_command +:+ "' not allowed in safe mode. Allowed: "
  +:+ join ", " allowed_commands.

(** [RunCommandTool.execute(command, reason)], for a tool built with
    [safe_mode] on the workspace rooted at [cwd]. *)
Definition execute (safe_mode : bool) (cwd : string) (command reason : string) : run :=
  let cmd_parts := split_command command in
  match cmd_parts with
  | [] => Return (failure "Empty command")
  | base_command :: _ =>
      if safe_mode && negb (is_allowed base_command) then
        Return (failure (refusal base_command))
      else Spawn cmd_parts 60 cwd (result_of base_command command reason)
  end.

(** The result, given what the operating system does with a spawned
    process. *)
Definition finish (os : list string -> Z -> string -> outcome) (r : run) : ToolResult :=
  match r with
  | Return result => result
  | Spawn cmd_parts timeout cwd continue_with => continue_with (os cmd_parts timeout cwd)
  end.

(** Whether a run spawned a process. *)
Definition spawns (r : run) : bool :=
  match r with
  | Return _ => false
  | Spawn _ _ _ _ => true
  end.

End Tools.

(* ================================================================== *)
(** * Workspace: [cobalt/workspace.py] *)
(* ================================================================== *)

Module Workspace.
Import Text.

(** ** The file system

    A POSIX tree of directories and regular files, keyed by absolute,
    normalised paths (lists of names; [[]] is the root directory, which
    always exists).  Symbolic links, special files and permissions are not
    modelled. *)

Inductive node : Type :=
| File (content : string)
| Dir.

Abbreviation path := (list string).
Abbreviation filesystem := (gmap (list string) node).

Definition kind (fs : filesystem) (p : path) : option node :=
  match p with
  | [] => Some Dir
  | _ => fs !! p
  end.

Inductive exn : Type :=
| ValueError
| UnicodeDecodeError
| UnicodeEncodeError
| FileNotFoundError
| NotADirectoryError
| IsADirectoryError
| FileExistsError.

Inductive result (A : Type) : Type :=
| Ok (a : A)
| Raise (e : exn).
Arguments Ok {A} a.
Arguments Raise {A} e.

(** ** [pathlib] *)

(** The pieces of a path string between slashes. *)
Fixpoint split_slash (s : string) (cur : string) : list string :=
  match s with
  | "" => [cur]
  | String c s' =>
      if Ascii.eqb c "/"%char then cur :: split_slash s' ""
      else split_slash s' (cur +:+ chr c)
  end.

(** [PurePosixPath(s).parts] without the root: empty pieces and [.] are
    dropped, [..] is kept. *)
Definition parts (s : string) : path :=
  List.filter (fun c => negb (String.eqb c "") && negb (String.eqb c "."))
              (split_slash s "").

Definition is_absolute (s : string) : bool := startswith "/" s.

(** [self.root / filepath]: an absolute right operand replaces the left
    one. *)
Definition joinpath (root : path) (filepath : string) : path :=
  if is_absolute filepath then parts filepath else root ++ parts filepath.

Definition up (p : path) : path := List.removelast p.

Definition enter (cur : path) (name : string) : path :=
  if String.eqb name ".." then up cur else cur ++ [name].

(** [Path.resolve()] where nothing is a symbolic link: [..] steps are
    taken on the text of the path. *)
Definition resolve (p : path) : path := fold_left enter p [].

(** [p.is_relative_to(root)]: [root] is [p] or one of its parents. *)
Fixpoint is_relative_to (p root : path) : bool :=
  match root, p with
  | [], _ => true
  | _ :: _, [] => false
  | r :: root', c :: p' => String.eqb r c && is_relative_to p' root'
  end.

(** [p.parent] *)
Definition parent (p : path) : path := up p.

(** ** The system calls behind [Path] methods *)

(** Path lookup from directory [cur]: every name is looked up in a
    directory that exists; the place the last name denotes need not
    exist. *)
Fixpoint namei (fs : filesystem) (cur : path) (names : path) : result path :=
  match names with
  | [] => Ok cur
  | name :: more =>
      match kind fs cur with
      | Some Dir => namei fs (enter cur name) more
      | Some (File _) => Raise NotADirectoryError
      | None => Raise FileNotFoundError
      end
  end.

(** [p.exists()] *)
Definition exists_ (fs : filesystem) (p : path) : bool :=
  match namei fs [] p with
  | Ok loc => match kind fs loc with Some _ => true | None => false end
  | Raise _ => false
  end.

(** [p.unlink()] *)
Definition unlink (fs : filesystem) (p : path) : filesystem * result unit :=
  match namei fs [] p with
  | Ok loc =>
      match kind fs loc with
      | Some (File _) => (delete loc fs, Ok tt)
      | Some Dir => (fs, Raise IsADirectoryError)
      | None => (fs, Raise FileNotFoundError)
      end
  | Raise e => (fs, Raise e)
  end.

(** [p.mkdir(parents=True, exist_ok=True)]: after it every prefix of [p]
    is a directory; a prefix that is a regular file stops it.  [cur] is a
    directory. *)
Fixpoint mkdir_p (fs : filesystem) (cur : path) (names : path) : filesystem * result unit :=
  match names with
  | [] => (fs, Ok tt)
  | name :: more =>
      let next := enter cur name in
      match kind fs next with
      | Some Dir => mkdir_p fs next more
      | Some (File _) => (fs, Raise FileExistsError)
      | None => mkdir_p (<[next := Dir]> fs) next more
      end
  end.

(** Reading in text mode translates line ends: CR LF and a lone CR become
    LF (the [newline=None] default of [open]). *)
Fixpoint universal_newlines (s : list Z) : list Z :=
  match s with
  | [] => []
  | c :: s' =>
      if c =? 13 then
        match s' with
        | d :: s'' => if d =? 10 then 10 :: universal_newlines s''
                      else 10 :: universal_newlines s'
        | [] => [10]
        end
      else c :: universal_newlines s'
  end.

(** [p.read_text(encoding=...)] *)
Definition read_text (decode : string -> option (list Z)) (fs : filesystem) (p : path)
    : result (list Z) :=
  match namei fs [] p with
  | Ok loc =>
      match kind fs loc with
      | Some (File bytes) =>
          match decode bytes with
          | Some text => Ok (universal_newlines text)
          | None => Raise UnicodeDecodeError
          end
      | Some Dir => Raise IsADirectoryError
      | None => Raise FileNotFoundError
      end
  | Raise e => Raise e
  end.

Definition latin1 (bytes : string) : option (list Z) := Some (Utf8.decode_latin1 bytes).

(** [p.write_text(content, encoding='utf-8')]: opening for writing creates
    or empties the file, then the encoded text is written; on POSIX no
    line end is translated. *)
Definition write_text (fs : filesystem) (p : path) (content : list Z)
    : filesystem * result unit :=
  match namei fs [] p with
  | Ok loc =>
      match kind fs loc with
      | Some Dir => (fs, Raise IsADirectoryError)
      | _ =>
          match Utf8.encode content with
          | Some bytes => (<[loc := File bytes]> fs, Ok tt)
          | None => (<[loc := File ""]> fs, Raise UnicodeEncodeError)
          end
      end
  | Raise e => (fs, Raise e)
  end.

(** ** The [Workspace] methods; [root] is [self.root], resolved when the
    workspace was made. *)

Definition inside (root : path) (full_path : path) : bool :=
  is_relative_to (resolve full_path) root.

(** [Workspace.read_file] *)
Definition read_file (root : path) (fs : filesystem) (filepath : string) : option (list Z) :=
  let full_path := joinpath root filepath in
  let attempt :=
    if negb (inside root full_path) then Raise ValueError
    else read_text Utf8.decode fs full_path in
  match attempt with
  | Ok text => Some text
  | Raise UnicodeDecodeError =>
      match read_text latin1 fs full_path with
      | Ok text => Some text
      | Raise _ => None
      end
  | Raise _ => None
  end.

(** [Workspace.write_file] *)
Definition write_file (root : path) (fs : filesystem) (filepath : string) (content : list Z)
    : filesystem * bool :=
  let full_path := joinpath root filepath in
  if negb (inside root full_path) then (fs, false)
  else
    match mkdir_p fs [] (parent full_path) with
    | (fs1, Ok _) =>
        match write_text fs1 full_path content with
        | (fs2, Ok _) => (fs2, true)
        | (fs2, Raise _) => (fs2, false)
        end
    | (fs1, Raise _) => (fs1, false)
    end.

(** [Workspace.delete_file] *)
Definition delete_file (root : path) (fs : filesystem) (filepath : string)
    : filesystem * bool :=
  let full_path := joinpath root filepath in
  if negb (inside root full_path) then (fs, false)
  else if exists_ fs full_path then
    match unlink fs full_path with
    | (fs1, Ok _) => (fs1, true)
    | (fs1, Raise _) => (fs1, false)
    end
  else (fs, false).

End Workspace.


(* ================================================================== *)
(** * More of [cobalt/workspace.py]: ignore rules, file information,
      line statistics *)
(* ================================================================== *)

Module WorkspaceMore.
Import Text Workspace.

(** ** More [str] and [pathlib] *)

(** [s.endswith(suffix)] *)
Definition endswith (suffix s : string) : bool :=
  (String.length suffix <=? String.length s)%nat
  && String.eqb (drop (String.length s - String.length suffix) s) suffix.

(** [s.rstrip('/')] *)
Fixpoint rstrip_slash (s : string) : string :=
  match s with
  | "" => ""
  | String c s' =>
      match rstrip_slash s' with
      | "" => if Ascii.eqb c "/"%char then "" else chr c
      | r => String c r
      end
  end.

(** [name.rfind('.')]; [None] is -1. *)
Fixpoint rfind_dot (name : string) : option nat :=
  match name with
  | "" => None
  | String c name' =>
      match rfind_dot name' with
      | Some i => Some (S i)
      | None => if Ascii.eqb c "."%char then Some O else None
      end
  end.

(** [p.name]: the last part, if the path has any. *)
Definition name_of (p : path) : string := List.last p "".

(** [p.suffix]: from the last dot of the name on, unless that dot is the
    first or the last character. *)
Definition suffix (p : path) : string :=
  let name := name_of p in
  match rfind_dot name with
  | Some i => if ((0 <? i) && (i <? String.length name - 1))%nat then drop i name else ""
  | None => ""
  end.

(** [p.is_file()] *)
Definition is_file (fs : filesystem) (p : path) : bool :=
  match namei fs [] p with
  | Ok loc => match kind fs loc with Some (File _) => true | _ => false end
  | Raise _ => false
  end.

(** ** [Workspace.__init__]: the ignore patterns *)

Definition default_patterns : list string :=
  ["__pycache__"; "*.pyc"; ".git"; ".venv"; "venv"; "node_modules"].

(** [for pattern in defaults: if pattern not in self.ignore_patterns:
    self.ignore_patterns.append(pattern)] *)
Definition add_defaults (ignore_patterns : list string) : list string :=
  fold_left
    (fun patterns pattern =>
       if existsb (String.eqb pattern) patterns then patterns else patterns ++ [pattern])
    default_patterns ignore_patterns.

(** ** [Workspace.should_ignore] *)

(** [str(p)] and [p.parts] for a path relative to the root (no names: the
    path [.]) and for an absolute path. *)
Definition relative_str (names : path) : string :=
  match names with
  | [] => "."
  | _ => join "/" names
  end.

Definition absolute_str (names : path) : string := "/" +:+ join "/" names.

Section ShouldIgnore.

(** [fnmatch.fnmatch(name, pattern)] *)
Variable fnmatch : string -> string -> bool.

(** The loop over the patterns. *)
Fixpoint ignored_by (patterns : list string) (path_str : string) (parts : list string) : bool :=
  match patterns with
  | [] => false
  | pattern :: more =>
      if endswith "/" pattern then
        if existsb (fun part => String.eqb part (rstrip_slash pattern)) parts
        then true else ignored_by more path_str parts
      else if fnmatch path_str pattern then true
      else if contains pattern path_str then true
      else ignored_by more path_str parts
  end.

(** [Workspace.should_ignore(path)] for an absolute [path]. *)
Definition should_ignore (root : path) (ignore_patterns : list string) (p : path) : bool :=
  if is_relative_to p root then
    let relative := List.skipn (List.length root) p in
    ignored_by ignore_patterns (relative_str relative) relative
  else ignored_by ignore_patterns (absolute_str p) ("/" :: p).

End ShouldIgnore.

(** ** [Workspace.file_exists] and [Workspace.get_file_info] *)

(** [Workspace.file_exists] *)
Definition file_exists (root : path) (fs : filesystem) (filepath : string) : bool :=
  let full_path := joinpath root filepath in
  exists_ fs full_path && is_file fs full_path.

(** The dictionary [get_file_info] returns. *)
Record file_info : Type := mkInfo {
  info_path : string;
  size : Z;
  modified : Z;
  info_is_file : bool;
  extension : string
}.

Section FileInfo.

(** What [stat] reports beyond the model of the file system: the time of
    the last change, and the size of a directory. *)
Variable st_mtime : path -> Z.
Variable dir_st_size : path -> Z.

(** [Workspace.get_file_info] *)
Definition get_file_info (root : path) (fs : filesystem) (filepath : string)
    : option file_info :=
  let full_path := joinpath root filepath in
  if negb (exists_ fs full_path) then None
  else
    match namei fs [] full_path with
    | Ok loc =>
        match kind fs loc with
        | Some (File bytes) =>
            Some {| info_path := filepath;
                    size := Z.of_nat (String.length bytes);
                    modified := st_mtime loc;
                    info_is_file := true;
                    extension := suffix full_path |}
        | Some Dir =>
            Some {| info_path := filepath;
                    size := dir_st_size loc;
                    modified := st_mtime loc;
                    info_is_file := false;
                    extension := suffix full_path |}
        | None => None
        end
    | Raise _ => None
    end.

End FileInfo.

(** ** [Workspace.count_lines] *)

(** [str.isspace] on a code point. *)
Definition isspace (c : Z) : bool :=
  ((9 <=? c) && (c <=? 13)) || ((28 <=? c) && (c <=? 32))
  || (c =? 133) || (c =? 160) || (c =? 5760)
  || ((8192 <=? c) && (c <=? 8202))
  || (c =? 8232) || (c =? 8233) || (c =? 8239) || (c =? 8287) || (c =? 12288).

(** The characters [str.splitlines] breaks at (CR LF counts once). *)
Definition is_linebreak (c : Z) : bool :=
  ((10 <=? c) && (c <=? 13)) || ((28 <=? c) && (c <=? 30))
  || (c =? 133) || (c =? 8232) || (c =? 8233).

(** [s.splitlines()] *)
Fixpoint splitlines_go (s : list Z) (cur : list Z) : list (list Z) :=
  match s with
  | [] => match cur with [] => [] | _ => [cur] end
  | c :: s' =>
      if (c =? 13) then
        match s' with
        | d :: s'' => if d =? 10 then cur :: splitlines_go s'' [] else cur :: splitlines_go s' []
        | [] => [cur]
        end
      else if is_linebreak c then cur :: splitlines_go s' []
      else splitlines_go s' (cur ++ [c])
  end.

Definition splitlines (s : list Z) : list (list Z) := splitlines_go s [].

Fixpoint lstrip_text (s : list Z) : list Z :=
  match s with
  | [] => []
  | c :: s' => if isspace c then lstrip_text s' else s
  end.

Fixpoint rstrip_text (s : list Z) : list Z :=
  match s with
  | [] => []
  | c :: s' =>
      match rstrip_text s' with
      | [] => if isspace c then [] else [c]
      | r => c :: r
      end
  end.

(** [line.strip()] *)
Definition strip_text (s : list Z) : list Z := rstrip_text (lstrip_text s).

(** The counters of [count_lines]. *)
Record stats : Type := mkStats {
  total_files : Z;
  total_lines : Z;
  code_lines : Z;
  comment_lines : Z;
  blank_lines : Z
}.

(** The inner loop: one line is blank, a comment or code. *)
Definition count_line (st : stats) (line : list Z) : stats :=
  match strip_text line with
  | [] =>
      {| total_files := total_files st; total_lines := total_lines st;
         code_lines := code_lines st; comment_lines := comment_lines st;
         blank_lines := blank_lines st + 1 |}
  | c :: _ =>
      if c =? 35 then
        {| total_files := total_files st; total_lines := total_lines st;
           code_lines := code_lines st; comment_lines := comment_lines st + 1;
           blank_lines := blank_lines st |}
      else
        {| total_files := total_files st; total_lines := total_lines st;
           code_lines := code_lines st + 1; comment_lines := comment_lines st;
           blank_lines := blank_lines st |}
  end.

(** The body of the outer loop for one file. *)
Definition count_file (root : path) (fs : filesystem) (st : stats) (filepath : string) : stats :=
  match read_file root fs filepath with
  | None | Some [] => st
  | Some content =>
      let lines := splitlines content in
      let st :=
        {| total_files := total_files st + 1;
           total_lines := total_lines st + Z.of_nat (List.length lines);
           code_lines := code_lines st; comment_lines := comment_lines st;
           blank_lines := blank_lines st |} in
      fold_left count_line lines st
  end.

(** [Workspace.count_lines]; [files] is what [self.list_files(file_pattern)]
    returned, each path relative to the root. *)
Definition count_lines (root : path) (fs : filesystem) (files : list string) : stats :=
  fold_left (count_file root fs) files
    {| total_files := 0; total_lines := 0; code_lines := 0; comment_lines := 0;
       blank_lines := 0 |}.

End WorkspaceMore.

(* ================================================================== *)
(** * More of [cobalt/tools.py]: the tool descriptors and the file tools *)
(* ================================================================== *)

Module Registry.
Import Text Workspace Tools.

(** How a tool documents one parameter: some constructors pass a
    dictionary of texts, the others a plain text. *)
Inductive param_doc : Type :=
| Described (fields : list (string * string))
| Plain (text : string).

(** [tools.Tool], the data of the base class. *)
Record Tool : Type := mkTool {
  name : string;
  description : string;
  parameters : list (string * param_doc);
  requires_confirmation : bool
}.

Definition ReadFileTool : Tool :=
  {| name := "read_file";
     description := "Read the contents of a file";
     parameters :=
       [("filepath", Described [("type", "string");
                                ("description", "Path to the file to read (relative to workspace)")])];
     requires_confirmation := false |}.

Definition CreateFileTool : Tool :=
  {| name := "create_file";
     description := "Create a new file with specified content. AI determines the filename.";
     parameters :=
       [("filepath", Described [("type", "string");
                                ("description", "Path for the new file (relative to workspace, e.g., 'src/calculator.py')")]);
        ("content", Described [("type", "string");
                               ("description", "Complete content to write to the file")]);
        ("reason", Described [("type", "string");
                              ("description", "Brief explanation of why this file is being created")])];
     requires_confirmation := true |}.

Definition WriteFileTool : Tool :=
  {| name := "write_file";
     description := "Write or modify content in an existing file";
     parameters :=
       [("filepath", Described [("type", "string");
                                ("description", "Path to the file to write (relative to workspace)")]);
        ("content", Described [("type", "string");
                               ("description", "Content to write to the file")])];
     requires_confirmation := true |}.

(** The next constructors do not pass [requires_confirmation]; the base
    class defaults it to [True]. *)
Definition ListFilesTool : Tool :=
  {| name := "list_files";
     description := "List files in the workspace matching a pattern";
     parameters :=
       [("pattern", Plain "Glob pattern to match files (default: *.py)");
        ("recursive", Plain "Search recursively (default: true)")];
     requires_confirmation := true |}.

Definition SearchCodeTool : Tool :=
  {| name := "search_code";
     description := "Search for text patterns in code files";
     parameters :=
       [("pattern", Plain "Text or regex pattern to search for");
        ("file_pattern", Plain "File pattern to search in (default: *.py)");
        ("regex", Plain "Use regex matching (default: false)")];
     requires_confirmation := true |}.

Definition AnalyzeCodeTool : Tool :=
  {| name := "analyze_code";
     description := "Analyze code structure and statistics";
     parameters := [("file_pattern", Plain "File pattern to analyze (default: *.py)")];
     requires_confirmation := true |}.

Definition RunCommandTool : Tool :=
  {| name := "run_command";
     description := "Execute a terminal/shell command. Use for running tests, installing packages, etc.";
     parameters :=
       [("command", Described [("type", "string");
                               ("description", "Full command to execute (e.g., 'python test.py' or 'pip install requests')")]);
        ("reason", Described [("type", "string");
                              ("description", "Brief explanation of why this command needs to run")])];
     requires_confirmation := true |}.

Definition GetTreeTool : Tool :=
  {| name := "get_tree";
     description := "Get directory tree structure";
     parameters := [("max_depth", Plain "Maximum depth to traverse (default: 3)")];
     requires_confirmation := true |}.

Definition FileInfoTool : Tool :=
  {| name := "file_info";
     description := "Get information about a file";
     parameters := [("filepath", Plain "Path to the file")];
     requires_confirmation := true |}.

(** [tools.get_all_tools] *)
Definition get_all_tools : list Tool :=
  [ReadFileTool; CreateFileTool; WriteFileTool; ListFilesTool; SearchCodeTool;
   AnalyzeCodeTool; RunCommandTool; GetTreeTool; FileInfoTool].

(** ** [Tool.to_openai_tool] *)

(** The dictionary built, without its constant [type] entries. *)
Record openai_tool : Type := mkOpenai {
  function_name : string;
  function_description : string;
  properties : list (string * param_doc);
  required : list string
}.

Inductive attempt (A : Type) : Type :=
| Value (a : A)
| AttributeError.
Arguments Value {A} a.
Arguments AttributeError {A}.

(** [v.get("required", True)], as a condition: a plain text has no [get];
    a text found under the key counts when it is not empty. *)
Definition is_required (v : param_doc) : attempt bool :=
  match v with
  | Described fields =>
      match List.find (fun kv => String.eqb (fst kv) "required") fields with
      | Some (_, text) => Value (negb (String.eqb text ""))
      | None => Value true
      end
  | Plain _ => AttributeError
  end.

(** [[k for k, v in self.parameters.items() if v.get("required", True)]] *)
Fixpoint required_names (items : list (string * param_doc)) : attempt (list string) :=
  match items with
  | [] => Value []
  | (k, v) :: more =>
      match is_required v with
      | AttributeError => AttributeError
      | Value keep =>
          match required_names more with
          | AttributeError => AttributeError
          | Value names => Value (if keep then k :: names else names)
          end
      end
  end.

Definition to_openai_tool (t : Tool) : attempt openai_tool :=
  match required_names (parameters t) with
  | AttributeError => AttributeError
  | Value names =>
      Value {| function_name := name t;
               function_description := description t;
               properties := parameters t;
               required := names |}
  end.

(** ** [CreateFileTool.execute] and [WriteFileTool.execute]

    The tools hold the workspace; [root] and the file system stand for
    it.  [len(content)] counts code points. *)

Definition len (content : list Z) : Z := Z.of_nat (List.length content).

Definition create_file (root : path) (fs : filesystem) (filepath : string)
    (content : list Z) (reason : string) : filesystem * ToolResult :=
  let '(fs', ok) := write_file root fs filepath content in
  if ok then
    (fs', {| success := true;
             output := "Created " +:+ filepath +:+ " (" +:+ str_of_Z (len content)
                       +:+ " bytes)" +:+ NL +:+ "Reason: " +:+ reason;
             error := None;
             metadata := [("filepath", MStr filepath); ("bytes", MInt (len content));
                          ("reason", MStr reason)] |})
  else (fs', failure ("Failed to create file: " +:+ filepath)).

Definition write_file_tool (root : path) (fs : filesystem) (filepath : string)
    (content : list Z) : filesystem * ToolResult :=
  let '(fs', ok) := write_file root fs filepath content in
  if ok then
    (fs', {| success := true;
             output := "Successfully wrote " +:+ str_of_Z (len content)
                       +:+ " bytes to " +:+ filepath;
             error := None;
             metadata := [("filepath", MStr filepath); ("bytes", MInt (len content))] |})
  else (fs', failure ("Failed to write file: " +:+ filepath)).

End Registry.

(* ================================================================== *)
(** * More of [cobalt/agent.py]: running one tool call *)
(* ================================================================== *)

Module Dispatch.
Import Text Json Agent Registry.

(** What [tool.execute] can come back with: a result, or an exception
    with its text. *)
Inductive execution : Type :=
| Returned (result : Tools.ToolResult)
| Raised (text : string).

(** What [_exec_tool] comes back with: the text it returns, or the
    [AttributeError] that leaves it. *)
Inductive reply : Type :=
| Said (text : string)
| Crashed.

(** A run of [_exec_tool]: it reads lines from the console with [input],
    calls [execute] of one tool at most, and ends.  As in [Agent], a line
    typed is the text of its bytes, stripped and lower-cased as ASCII. *)
Inductive action : Type :=
| Finish (r : reply)
| Prompt (continue_with : string -> action)
| Execute (tool : Tool) (kwargs : dict) (continue_with : execution -> reply).

(** [CobaltAgent._find_tool]: the first tool with that name.  A name that
    is not a text equals no tool's name. *)
Definition _find_tool (tools : list Tool) (tool_name : json) : option Tool :=
  match tool_name with
  | JStr s => List.find (fun t => String.eqb (name t) s) tools
  | _ => None
  end.

(** [str(x)] for [result.error]. *)
Definition str_of_error (e : option string) : string :=
  match e with
  | Some text => text
  | None => "None"
  end.

(** The [try] block. *)
Definition run_tool (tool : Tool) (kwargs : dict) : action :=
  Execute tool kwargs
    (fun e =>
       match e with
       | Returned result =>
           if Tools.success result
           then Said (Tools.or_default (Tools.output result) "Success")
           else Said ("Error: " +:+ str_of_error (Tools.error result))
       | Raised text => Said ("Error: " +:+ text)
       end).

(** [choice not in ['y', 'yes']] decides between the two ends. *)
Definition decide_on (choice : string) (tool : Tool) (kwargs : dict) : action :=
  if String.eqb choice "y" || String.eqb choice "yes"
  then run_tool tool kwargs
  else Finish (Said "Cancelled by user").

Section ExecTool.

(** [str(value)], as an f-string formats [tool_call.tool_name] *)
Variable format_value : json -> string.

(** [CobaltAgent._exec_tool]; the lines printed are left out. *)
Definition _exec_tool (tools : list Tool) (tool_call : ToolCall) (index total : Z) : action :=
  match _find_tool tools (tool_name tool_call) with
  | None => Finish (Said ("Error: Tool " +:+ format_value (tool_name tool_call) +:+ " not found"))
  | Some tool =>
      match Agent.parameters tool_call with
      | JObj kwargs =>
          if requires_confirmation tool then
            Prompt (fun line =>
              let choice := lower (strip line) in
              if String.eqb choice "v" && dict_has "content" kwargs
              then Prompt (fun line' => decide_on (lower (strip line')) tool kwargs)
              else decide_on choice tool kwargs)
          else run_tool tool kwargs
      | _ => Finish Crashed
      end
  end.

End ExecTool.

(** A run played against the lines typed at the console and what the tool
    does: the reply, and the call made to the tool if one was made.  [None]
    when the console has no line left for a prompt. *)
Fixpoint play (a : action) (lines : list string) (tool_does : execution)
    : option (reply * option (Tool * dict)) :=
  match a with
  | Finish r => Some (r, None)
  | Prompt k =>
      match lines with
      | line :: more => play (k line) more tool_does
      | [] => None
      end
  | Execute tool kwargs k => Some (k tool_does, Some (tool, kwargs))
  end.

End Dispatch.

(* ================================================================== *)
(** * [cobalt/ui.py]: the word wrap of a thinking step *)
(* ================================================================== *)

Module Ui.
Import Text WorkspaceMore.

(** [description.split()]: the maximal runs of characters that are not
    white space. *)
Fixpoint split_whitespace_go (s : list Z) (cur : list Z) : list (list Z) :=
  match s with
  | [] => match cur with [] => [] | _ => [cur] end
  | c :: s' =>
      if isspace c
      then match cur with [] => split_whitespace_go s' [] | _ => cur :: split_whitespace_go s' [] end
      else split_whitespace_go s' (cur ++ [c])
  end.

Definition split_whitespace (s : list Z) : list (list Z) := split_whitespace_go s [].

(** The text every line of the box begins with: a vertical bar and two
    spaces. *)
Definition bar : Z := 9474.
Definition margin : list Z := [bar; 32; 32].

(** The loop of [UI.display_thinking_step] over the words and the test
    after it; the result is the lines it prints, in order, before they
    are coloured. *)
Fixpoint wrap_words (words : list (list Z)) (line : list Z) : list (list Z) :=
  match words with
  | [] =>
      match strip_text line with
      | [c] => if c =? bar then [] else [line]
      | _ => [line]
      end
  | word :: more =>
      if (70 <? Z.of_nat (List.length line) + Z.of_nat (List.length word) + 1)
      then line :: wrap_words more (margin ++ word ++ [32])
      else wrap_words more (line ++ word ++ [32])
  end.

(** The lines between the header and the foot of the box. *)
Definition wrapped_description (description : list Z) : list (list Z) :=
  wrap_words (split_whitespace description) margin.

End Ui.

(* ================================================================== *)
(** * [cobalt/cli.py]: the provider and its defaults *)
(* ================================================================== *)

Module Cli.

(** The fields of [config.Config] that the choice of a provider
    touches. *)
Record Config : Type := mkConfig {
  provider : string;
  endpoint : string;
  model : string
}.

(** The [provider] command of [CobaltCLI.handle_command]. *)
Definition switch_provider (config : Config) : Config :=
  let old := provider config in
  let provider' := if String.eqb old "ollama" then "lmstudio" else "ollama" in
  let endpoint' :=
    if String.eqb provider' "lmstudio" then "http://localhost:1234"
    else "http://localhost:11434" in
  let model' := if String.eqb provider' "lmstudio" then "local-model" else "codellama" in
  {| provider := provider'; endpoint := endpoint'; model := model' |}.

(** [main]: the configuration made from the command line; [--endpoint]
    and [--model] are [None] when not given, and an empty text counts as
    not given. *)
Definition given (arg : option string) : option string :=
  match arg with
  | Some "" | None => None
  | Some text => Some text
  end.

Definition main_config (args_provider : string) (args_endpoint args_model : option string)
    : Config :=
  {| provider := args_provider;
     endpoint :=
       match given args_endpoint with
       | Some e => e
       | None =>
           if String.eqb args_provider "ollama" then "http://localhost:11434"
           else "http://localhost:1234"
       end;
     model :=
       match given args_model with
       | Some m => m
       | None => if String.eqb args_provider "ollama" then "codellama" else "local-model"
       end |}.

(** The provider test of [Config.validate]. *)
Definition valid_provider (config : Config) : bool :=
  existsb (String.eqb (provider config)) ["ollama"; "lmstudio"].

End Cli.

(* ================================================================== *)
(** * Properties of the command executor *)
(* ================================================================== *)

Module ToolsSpec.
Import Text Tools.

Lemma execute_empty safe_mode cwd command reason :
  split_command command = [] ->
  execute safe_mode cwd command reason = Return (failure "Empty command").
Proof. intros H. unfold execute. now rewrite H. Qed.

Lemma execute_refused cwd command reason base rest :
  split_command command = base :: rest ->
  is_allowed base = false ->
  execute true cwd command reason = Return (failure (refusal base)).
Proof. intros H Hno. unfold execute. rewrite H, Hno. reflexivity. Qed.

Lemma execute_spawns safe_mode cwd command reason base rest :
  split_command command = base :: rest ->
  safe_mode && negb (is_allowed base) = false ->
  execute safe_mode cwd command reason
  = Spawn (base :: rest) 60 cwd (result_of base command reason).
Proof. intros H Hok. unfold execute. rewrite H. now rewrite Hok. Qed.

(** Every run of [execute] has one of three shapes. *)
Lemma execute_cases safe_mode cwd command reason :
  (split_command command = []
   /\ execute safe_mode cwd command reason = Return (failure "Empty command"))
  \/ (exists base rest,
        split_command command = base :: rest /\ safe_mode = true /\ is_allowed base = false
        /\ execute safe_mode cwd command reason = Return (failure (refusal base)))
  \/ (exists base rest,
        split_command command = base :: rest
        /\ execute safe_mode cwd command reason
           = Spawn (base :: rest) 60 cwd (result_of base command reason)).
Proof.
  destruct (split_command command) as [|base rest] eqn:H.
  - left. split; [reflexivity|]. now apply execute_empty.
  - destruct (safe_mode && negb (is_allowed base)) eqn:Hs.
    + right; left. exists base, rest.
      apply andb_true_iff in Hs as [-> Hn]. apply negb_true_iff in Hn.
      repeat split; try assumption. now apply execute_refused with rest.
    + right; right. exists base, rest. split; [reflexivity|].
      now apply execute_spawns.
Qed.

(** C2.  In safe mode a command whose first word starts with none of the
    allow-listed names is refused: [execute] returns a failure without
    spawning a process, and the error text lists the whole allow-list; a
    first word that starts with a listed name is let through to the
    spawn.  So [rm -rf /] is refused before any process is spawned and
    [python script.py] is spawned. *)
Theorem safe_mode_allow_list (cwd reason : string) :
  (forall command base rest,
      split_command command = base :: rest ->
      is_allowed base = false ->
      let r := execute true cwd command reason in
      spawns r = false
      /\ r = Return {| success := false; output := "";
                       error := Some ("Command '" +:+ base
                                      +:+ "' not allowed in safe mode. Allowed: "
                                      +:+ "python, python3, pip, pip3, node, npm, npx, ls, dir, cat, type, echo, git, pytest, test");
                       metadata := [] |})
  /\ (forall command base rest,
      split_command command = base :: rest ->
      is_allowed base = true ->
      execute true cwd command reason
      = Spawn (base :: rest) 60 cwd (result_of base command reason))
  /\ execute true cwd "rm -rf /" reason = Return (failure (refusal "rm"))
  /\ execute true cwd "python script.py" reason
     = Spawn ["python"; "script.py"] 60 cwd (result_of "python" "python script.py" reason).
Proof.
  split; [|split; [|split]].
  - intros command base rest H Hno r. subst r.
    rewrite (execute_refused cwd command reason base rest H Hno).
    split; reflexivity.
  - intros command base rest H Hyes.
    apply execute_spawns; [assumption|]. now rewrite Hyes.
  - reflexivity.
  - reflexivity.
Qed.

Lemma safe_mode_allow_list_witness :
  split_command "rm -rf /" = ["rm"; "-rf"; "/"]
  /\ is_allowed "rm" = false
  /\ spawns (execute true "/ws" "rm -rf /" "clean up") = false.
Proof.
  split; [reflexivity|]. split; [reflexivity|].
  exact (proj1 (proj1 (safe_mode_allow_list "/ws" "clean up")
                  "rm -rf /" "rm" ["-rf"; "/"] eq_refl eq_refl)).
Defined.

Lemma timeout_text_differs base :
  "Command timed out after 60 seconds" <> "Command not found: " +:+ base.
Proof. cbn. intros H. inversion H. Qed.

(** C9.  [execute] always returns a result, and the result reports success
    exactly when a process was spawned and exited with code 0.  A non-zero
    exit is a failure whose metadata carries the exit code; the 60-second
    timeout and a missing executable are failures with their own, different
    error texts; a command with no words after splitting is a failure.  In
    the model every [except] clause ends in a returned result, so no
    outcome of the spawn escapes as an exception. *)
Theorem execute_outcomes (os : list string -> Z -> string -> outcome)
    (safe_mode : bool) (cwd command reason : string) :
  let r := execute safe_mode cwd command reason in
  (success (finish os r) = true <->
     exists parts k stdout stderr,
       r = Spawn parts 60 cwd k /\ os parts 60 cwd = Completed 0 stdout stderr)
  /\ (forall parts k code stdout stderr,
        r = Spawn parts 60 cwd k -> os parts 60 cwd = Completed code stdout stderr ->
        code <> 0 ->
        success (finish os r) = false
        /\ error (finish os r) = Some ("Command exited with code " +:+ str_of_Z code)
        /\ In ("returncode", MInt code) (metadata (finish os r)))
  /\ (forall parts k,
        r = Spawn parts 60 cwd k -> os parts 60 cwd = TimeoutExpired ->
        finish os r = failure "Command timed out after 60 seconds")
  /\ (forall parts k,
        r = Spawn parts 60 cwd k -> os parts 60 cwd = FileNotFoundError ->
        exists base, hd_error (split_command command) = Some base
          /\ finish os r = failure ("Command not found: " +:+ base)
          /\ finish os r <> failure "Command timed out after 60 seconds")
  /\ (split_command command = [] -> finish os r = failure "Empty command")
  /\ (forall parts timeout dir k, r = Spawn parts timeout dir k ->
        timeout = 60 /\ dir = cwd /\ parts = split_command command)
  /\ execute safe_mode cwd "" reason = Return (failure "Empty command")
  /\ execute safe_mode cwd "   " reason = Return (failure "Empty command")
  /\ shlex_split (dq "echo 'never closed") = None
  /\ split_command (dq "echo 'never closed") = ["echo"; dq "'never"; "closed"].
Proof.
  intros r. subst r.
  assert (Hfixed :
            execute safe_mode cwd "" reason = Return (failure "Empty command")
            /\ execute safe_mode cwd "   " reason = Return (failure "Empty command")
            /\ shlex_split (dq "echo 'never closed") = None
            /\ split_command (dq "echo 'never closed") = ["echo"; dq "'never"; "closed"])
    by (destruct safe_mode; repeat split; reflexivity).
  destruct (execute_cases safe_mode cwd command reason)
    as [[Hs He] | [(base & rest & Hs & Hm & Hno & He) | (base & rest & Hs & He)]];
    rewrite He; cbn [finish].
  - split; [split; [cbn; discriminate | intros (? & ? & ? & ? & H & _); discriminate H]|].
    split; [intros ? ? ? ? ? H; discriminate H|].
    split; [intros ? ? H; discriminate H|].
    split; [intros ? ? H; discriminate H|].
    split; [intros _; reflexivity|].
    split; [intros ? ? ? ? H; discriminate H | exact Hfixed].
  - split; [split; [cbn; discriminate | intros (? & ? & ? & ? & H & _); discriminate H]|].
    split; [intros ? ? ? ? ? H; discriminate H|].
    split; [intros ? ? H; discriminate H|].
    split; [intros ? ? H; discriminate H|].
    split; [rewrite Hs; discriminate|].
    split; [intros ? ? ? ? H; discriminate H | exact Hfixed].
  - split; [|split; [|split; [|split; [|split; [|split; [|exact Hfixed]]]]]].
    + split.
      * destruct (os (base :: rest) 60 cwd) as [code out err| | |] eqn:Ho;
          cbn; try discriminate.
        intros Hc. apply Z.eqb_eq in Hc. subst code.
        exists (base :: rest), (result_of base command reason), out, err.
        split; [reflexivity | assumption].
      * intros (parts & k & out & err & H & Ho).
        injection H as <- <-. rewrite Ho. reflexivity.
    + intros parts k code out err H Ho Hne.
      injection H as <- <-. rewrite Ho. cbn.
      apply Z.eqb_neq in Hne. rewrite Hne.
      repeat split. now left.
    + intros parts k H Ho. injection H as <- <-. now rewrite Ho.
    + intros parts k H Ho. injection H as <- <-. rewrite Ho. cbn [result_of].
      exists base. rewrite Hs. split; [reflexivity|]. split; [reflexivity|].
      intros Heq.
      pose proof (f_equal (fun t => match error t with Some e => e | None => "" end) Heq) as E.
      exact (timeout_text_differs base (eq_sym E)).
    + rewrite Hs. discriminate.
    + intros parts timeout dir k H. injection H as <- <- <- <-.
      rewrite Hs. repeat split.
Qed.

Definition failing_os (cmd_parts : list string) (timeout : Z) (cwd : string) : outcome :=
  Completed 2 "" "No such file".

Lemma execute_outcomes_witness :
  execute false "/ws" "ls missing" "" = Spawn ["ls"; "missing"] 60 "/ws" (result_of "ls" "ls missing" "")
  /\ failing_os ["ls"; "missing"] 60 "/ws" = Completed 2 "" "No such file"
  /\ success (finish failing_os (execute false "/ws" "ls missing" "")) = false
  /\ error (finish failing_os (execute false "/ws" "ls missing" ""))
     = Some "Command exited with code 2".
Proof.
  split; [reflexivity|]. split; [reflexivity|].
  pose proof (proj1 (proj2 (execute_outcomes failing_os false "/ws" "ls missing" ""))
                ["ls"; "missing"] (result_of "ls" "ls missing" "") 2 "" "No such file"
                eq_refl eq_refl) as H.
  destruct H as (H1 & H2 & _); [discriminate|].
  split; [exact H1 | exact H2].
Defined.

End ToolsSpec.

(* ================================================================== *)
(** * Properties of the turn loop *)
(* ================================================================== *)

Module LoopSpec.
Import Text Json Agent.

(** The turn numbers a log shows, in order. *)
Fixpoint turns_of (events : list ui_event) : list Z :=
  match events with
  | [] => []
  | Turn turn _ :: more => turn :: turns_of more
  | _ :: more => turns_of more
  end.

(** The two lines by which [execute_task] tells the user that a task went
    wrong: [print_error("LLM failed")] and the [print_warning] about the
    format. *)
Definition marks_failure (e : ui_event) : bool :=
  match e with
  | Error _ | Warning _ => true
  | _ => false
  end.

Definition failures_of (events : list ui_event) : list ui_event :=
  List.filter marks_failure events.

(** [range(start, start + n)] *)
Fixpoint range (start : Z) (n : nat) : list Z :=
  match n with
  | O => []
  | S k => start :: range (start + 1) k
  end.

Lemma turns_of_app a b : turns_of (a ++ b) = turns_of a ++ turns_of b.
Proof.
  induction a as [|e a IH]; [reflexivity|].
  destruct e; cbn; rewrite IH; reflexivity.
Qed.

Lemma failures_of_app a b : failures_of (a ++ b) = failures_of a ++ failures_of b.
Proof. apply List.filter_app. Qed.

Lemma range_bounds start n k : In k (range start n) -> start <= k < start + Z.of_nat n.
Proof.
  revert start. induction n as [|n IH]; intros start; cbn [range In]; [tauto|].
  intros [<- | Hin]; [lia|]. apply IH in Hin. lia.
Qed.

Lemma range_length start n : List.length (range start n) = n.
Proof. revert start. induction n as [|n IH]; intros; cbn; [|rewrite IH]; reflexivity. Qed.

Section Loop.

Variable World : Type.
Variable llm_generate : World -> list Message -> World * LLMResponse.
Variable _exec_tool : World -> ToolCall -> Z -> Z -> World * string.
Variable system_prompt workspace_name : string.
Variable format_value : json -> string.

Local Abbreviation state := (state World).
Local Abbreviation turn_body := (turn_body World llm_generate _exec_tool format_value).
Local Abbreviation turn_loop := (turn_loop World llm_generate _exec_tool format_value).
Local Abbreviation execute_task :=
  (execute_task World llm_generate _exec_tool system_prompt workspace_name format_value).
Local Abbreviation no_tool_calls_block := (no_tool_calls_block World).

(** What the [if not tool_calls:] block adds to the log. *)
Lemma no_tool_calls_block_log ai_response tool_calls (st : state) st' r :
  no_tool_calls_block ai_response tool_calls st = (st', r) ->
  exists evs, ui _ st' = ui _ st ++ evs
              /\ turns_of evs = []
              /\ (r <> None -> failures_of evs = []).
Proof.
  unfold Agent.no_tool_calls_block. intros H.
  destruct tool_calls as [|tc more].
  - destruct (has_marker ai_response).
    + destruct (recover ai_response []) as [|rc rcs];
        destruct (says_done ai_response); injection H as <- <-; cbn [ui log];
        rewrite <- ?app_assoc;
        (eexists; split; [reflexivity|]; split; [reflexivity|];
         intros Hr; exfalso; apply Hr; reflexivity).
    + injection H as <- <-. exists []. rewrite app_nil_r. repeat split.
  - injection H as <- <-. exists []. rewrite app_nil_r. repeat split.
Qed.

(** One turn adds its own header and no other; a turn after which the loop
    goes on adds no failure line. *)
Lemma turn_body_log max_turns turn (st : state) st' goes_on :
  turn_body max_turns turn st = (st', goes_on) ->
  exists evs, ui _ st' = ui _ st ++ Turn turn max_turns :: evs
              /\ turns_of evs = []
              /\ (goes_on = true -> failures_of evs = []).
Proof.
  unfold Agent.turn_body. intros H.
  destruct (llm_generate _ _) as [w response].
  destruct (success response); cbn [negb] in H.
  - destruct (no_tool_calls_block _ _ _) as [st1 r] eqn:Hb.
    apply no_tool_calls_block_log in Hb as (evs & Hui & Ht & Hf).
    cbn [ui append_message set_world log] in Hui.
    rewrite <- !app_assoc in Hui. cbn [app] in Hui.
    destruct r as [tool_calls|].
    + destruct (exec_all _ _ _ _ _ _ _ _) as [w' results].
      destruct results as [|x xs]; injection H as <- <-;
        cbn [ui append_message set_world]; rewrite Hui;
        exists (Info "Requesting AI action..." :: evs);
        (split; [reflexivity|]); (split; [exact Ht|]);
        intros _; cbn; apply Hf; discriminate.
    + injection H as <- <-. rewrite Hui.
      exists (Info "Requesting AI action..." :: evs).
      split; [reflexivity|]. split; [exact Ht|]. discriminate.
  - injection H as <- <-. cbn [ui log set_world].
    rewrite <- !app_assoc. cbn [app].
    eexists. split; [reflexivity|]. split; [reflexivity|]. discriminate.
Qed.

(** The loop shows the turns [turn], [turn + 1], ... one by one, at most
    [remaining] of them; all of them, and no failure line, when the range
    runs out. *)
Lemma turn_loop_log remaining : forall max_turns turn (st : state) st' how,
  turn_loop remaining max_turns turn st = (st', how) ->
  exists ran,
    (ran <= remaining)%nat
    /\ turns_of (ui _ st') = turns_of (ui _ st) ++ range turn ran
    /\ match how with
       | RangeExhausted =>
           ran = remaining /\ failures_of (ui _ st') = failures_of (ui _ st)
       | Break k => (1 <= ran)%nat /\ k = turn + Z.of_nat ran - 1
       end.
Proof.
  induction remaining as [|n IH]; intros max_turns turn st st' how H; cbn in H.
  - injection H as <- <-. exists O. rewrite app_nil_r. repeat split. lia.
  - destruct (turn_body max_turns turn st) as [st1 goes_on] eqn:Hb.
    apply turn_body_log in Hb as (evs & Hui & Ht & Hf).
    destruct goes_on.
    + apply IH in H as (ran & Hle & Hturns & Hhow).
      exists (S ran). split; [lia|]. split.
      * rewrite Hturns, Hui, turns_of_app. cbn [turns_of range].
        rewrite Ht, <- app_assoc. reflexivity.
      * destruct how as [|k].
        -- destruct Hhow as [-> Hfail]. split; [reflexivity|].
           rewrite Hfail, Hui, failures_of_app.
           change (failures_of (Turn turn max_turns :: evs)) with (failures_of evs).
           rewrite (Hf eq_refl). apply app_nil_r.
        -- destruct Hhow as [Hge ->]. split; lia.
    + injection H as <- <-. exists 1%nat. split; [lia|]. split.
      * rewrite Hui, turns_of_app. cbn [turns_of range]. now rewrite Ht.
      * split; lia.
Qed.

(** C7.  In every execution of a task the turns shown are 1, 2, ... in
    order, none above [max_turns], and at most [max_turns] of them; the
    loop always ends.  When the range runs out - the cap is reached with no
    [break] - exactly the turns 1 to [max_turns] were run, the execution
    closes with its usual last line and the log has no failure line: the
    task is not marked as failed although the model never said it was done.
    A [break] happens in a turn between 1 and [max_turns].  The default
    cap is 10. *)
Theorem turn_index_bounded (task : string) (max_turns : Z) (w : World) :
  let st := fst (execute_task task max_turns w) in
  let how := snd (execute_task task max_turns w) in
  (exists ran, (ran <= Z.to_nat max_turns)%nat /\ turns_of (ui _ st) = range 1 ran)
  /\ Forall (fun turn => 1 <= turn <= max_turns) (turns_of (ui _ st))
  /\ (List.length (turns_of (ui _ st)) <= Z.to_nat max_turns)%nat
  /\ (how = RangeExhausted ->
        turns_of (ui _ st) = range 1 (Z.to_nat max_turns)
        /\ failures_of (ui _ st) = []
        /\ List.last (ui _ st) (Bold "") = Bold "AGENT EXECUTION COMPLETED")
  /\ (forall k, how = Break k -> 1 <= k <= max_turns)
  /\ default_max_turns = 10.
Proof.
  intros st how. subst st how. unfold Agent.execute_task.
  destruct (turn_loop _ _ _ _) as [st1 how1] eqn:Hl.
  apply turn_loop_log in Hl as (ran & Hle & Hturns & Hhow).
  cbn [fst snd ui log]. cbn [initial_state ui turns_of app] in Hturns, Hhow.
  rewrite turns_of_app, Hturns. cbn [turns_of]. rewrite app_nil_r.
  split; [exists ran; split; [assumption | reflexivity]|].
  split; [|split; [|split; [|split]]].
  - apply Forall_forall. intros k Hin%list_elem_of_In%range_bounds. lia.
  - rewrite range_length. exact Hle.
  - intros ->. destruct Hhow as [-> Hfail]. split; [reflexivity|]. split.
    + rewrite failures_of_app, Hfail. reflexivity.
    + apply List.last_last.
  - intros k ->. destruct Hhow as [Hge ->]. lia.
  - reflexivity.
Qed.

End Loop.

(** A two-turn run that reaches the cap: the model asks for a tool on every
    turn and never says it is done. *)
Definition busy_model (w : unit) (history : list Message) : unit * LLMResponse :=
  (tt, mkResponse true (dq "{'tool':'list_files','parameters':{'pattern':'*.py'}}")).

Definition stub_tool (w : unit) (tc : ToolCall) (i total : Z) : unit * string :=
  (tt, "main.py").

Definition show_value (v : json) : string :=
  match v with
  | JStr s => s
  | _ => "?"
  end.

Lemma turn_index_bounded_witness :
  snd (execute_task unit busy_model stub_tool "prompt" "/ws" show_value "tidy up" 2 tt)
  = RangeExhausted
  /\ turns_of (ui _ (fst (execute_task unit busy_model stub_tool "prompt" "/ws" show_value
                                       "tidy up" 2 tt))) = [1; 2]
  /\ failures_of (ui _ (fst (execute_task unit busy_model stub_tool "prompt" "/ws" show_value
                                          "tidy up" 2 tt))) = [].
Proof.
  assert (Hhow : snd (execute_task unit busy_model stub_tool "prompt" "/ws" show_value
                                   "tidy up" 2 tt) = RangeExhausted)
    by (vm_compute; reflexivity).
  split; [exact Hhow|].
  destruct (proj1 (proj2 (proj2 (proj2
             (turn_index_bounded unit busy_model stub_tool "prompt" "/ws" show_value
                                 "tidy up" 2 tt)))) Hhow) as (Ht & Hf & _).
  split; [exact Ht | exact Hf].
Defined.

(** ** A reply with no tool call *)

Section NoToolCall.

Variable World : Type.
Variable llm_generate : World -> list Message -> World * LLMResponse.
Variable _exec_tool : World -> ToolCall -> Z -> Z -> World * string.
Variable format_value : json -> string.

Local Abbreviation turn_body := (turn_body World llm_generate _exec_tool format_value).

(** What a turn does with a reply from which the parser gets nothing.  The
    scan for completion words sits inside the branch for replies that
    hold a marker token: with a marker the turn ends the loop with the
    success line or the warning; without one the scan is not reached, and
    the loop ends on the empty result list with neither line. *)
Lemma turn_without_tool_call max_turns turn (st : state World) w reply :
  llm_generate (world _ st) (messages _ st) = (w, mkResponse true reply) ->
  _extract_tool_calls reply = [] ->
  let st' := fst (turn_body max_turns turn st) in
  snd (turn_body max_turns turn st) = false
  /\ exists evs,
       ui _ st' = ui _ st ++ [Turn turn max_turns; Info "Requesting AI action..."] ++ evs
       /\ (has_marker reply = false -> evs = [])
       /\ (has_marker reply = true -> says_done reply = true ->
             List.last evs (Bold "") = Success "Task completed!")
       /\ (has_marker reply = true -> says_done reply = false ->
             List.last evs (Bold "")
             = Warning "No tool calls detected. Model may not understand the format.").
Proof.
  intros Hllm Hnone. unfold Agent.turn_body.
  cbn [world messages log]. rewrite Hllm. cbn [success negb response_content].
  rewrite Hnone. unfold no_tool_calls_block.
  destruct (has_marker reply).
  - destruct (recover reply []) as [|rc rcs]; destruct (says_done reply);
      cbn [fst snd ui log append_message set_world]; (split; [reflexivity|]);
      rewrite <- ?app_assoc; eexists; (split; [reflexivity|]);
      repeat split; intros; try discriminate; reflexivity.
  - cbn [exec_all fst snd ui log append_message set_world world].
    split; [reflexivity|]. exists []. rewrite <- !app_assoc.
    repeat split; intros; discriminate.
Qed.

End NoToolCall.

(** Three models that answer without a tool call. *)
Definition says_completed (w : unit) (history : list Message) : unit * LLMResponse :=
  (tt, mkResponse true "Task completed").

Definition says_nothing_useful (w : unit) (history : list Message) : unit * LLMResponse :=
  (tt, mkResponse true "I am not sure how to proceed.").

Definition says_completed_after_marker (w : unit) (history : list Message)
  : unit * LLMResponse :=
  (tt, mkResponse true "<|message|>Task completed").

(** C4, as the code runs.  The reply [Task completed], the answer the
    system prompt asks for, holds a completion word and no tool call: the
    loop stops in turn 1, but the log has no success line.  A reply with
    neither tool call nor completion word stops the loop in turn 1 too, and
    the log has no warning.  The same words after a marker token do give
    the success line. *)
Theorem completion_scan_skipped_without_marker :
  _extract_tool_calls "Task completed" = []
  /\ says_done "Task completed" = true
  /\ execute_task unit says_completed stub_tool "prompt" "/ws" show_value "tidy up" 10 tt
     = ({| world := tt;
           messages := [ mkMessage "system" "prompt";
                         mkMessage "user" "Task: tidy up\nWorkspace: /ws";
                         mkMessage "assistant" "Task completed" ];
           ui := [ Bold "AGENT EXECUTION STARTED"; Bold "Task: tidy up";
                   Turn 1 10; Info "Requesting AI action...";
                   Bold "AGENT EXECUTION COMPLETED" ] |},
        Break 1)
  /\ says_done "I am not sure how to proceed." = false
  /\ ui _ (fst (execute_task unit says_nothing_useful stub_tool "prompt" "/ws" show_value
                             "tidy up" 10 tt))
     = [ Bold "AGENT EXECUTION STARTED"; Bold "Task: tidy up";
         Turn 1 10; Info "Requesting AI action...";
         Bold "AGENT EXECUTION COMPLETED" ]
  /\ ui _ (fst (execute_task unit says_completed_after_marker stub_tool "prompt" "/ws"
                             show_value "tidy up" 10 tt))
     = [ Bold "AGENT EXECUTION STARTED"; Bold "Task: tidy up";
         Turn 1 10; Info "Requesting AI action...";
         Success "Task completed!";
         Bold "AGENT EXECUTION COMPLETED" ].
Proof. repeat split; vm_compute; reflexivity. Qed.

End LoopSpec.

(* ================================================================== *)
(** * Facts about the text functions *)
(* ================================================================== *)

Module TextFacts.
Import Text.


Lemma sapp_nil_r (a : string) : a +:+ "" = a.
Proof. induction a as [|x a IH]; cbn; [|rewrite IH]; reflexivity. Qed.

Lemma length_sapp (a b : string) :
  String.length (a +:+ b) = (String.length a + String.length b)%nat.
Proof. induction a as [|x a IH]; cbn; [|rewrite IH]; reflexivity. Qed.


Lemma startswith_sapp (p rest : string) : startswith p (p +:+ rest) = true.
Proof. induction p as [|x p IH]; cbn; [|rewrite Ascii.eqb_refl, IH]; reflexivity. Qed.




End TextFacts.

(* ================================================================== *)
(** * Properties of the parser *)
(* ================================================================== *)

Module ParserSpec.
Import Text Json Agent TextFacts.

(** The requests one candidate text gives: none or one. *)
Definition candidate (text : string) : list ToolCall := append_parsed text [].

Lemma append_parsed_candidate text acc : append_parsed text acc = acc ++ candidate text.
Proof.
  unfold candidate, append_parsed.
  destruct (loads text) as [data|]; [|now rewrite app_nil_r].
  destruct (tool_call_of data); [reflexivity | now rewrite app_nil_r].
Qed.

Lemma candidate_length text : (List.length (candidate text) <= 1)%nat.
Proof.
  unfold candidate, append_parsed.
  destruct (loads text) as [data|]; [|cbn; lia].
  destruct (tool_call_of data); cbn; lia.
Qed.

Lemma candidate_object text d t :
  loads text = Some (JObj d) -> dict_get "tool" d = Some t ->
  candidate text
  = [ {| tool_name := t;
         parameters := dict_get_default "parameters" (JObj []) d;
         reasoning := dict_get_default "reason" (JStr "") d |} ].
Proof.
  intros Hl Ht. unfold candidate, append_parsed. rewrite Hl. cbn. now rewrite Ht.
Qed.





(** ** One fenced block *)










(** ** The order of the tiers *)

Lemma extract_tier1 response :
  tier1 response <> [] -> _extract_tool_calls response = tier1 response.
Proof.
  unfold _extract_tool_calls, tier1. destruct (method1 response []); [congruence|reflexivity].
Qed.

Lemma extract_tier2 response :
  tier1 response = [] -> tier2 response <> [] ->
  _extract_tool_calls response = tier2 response.
Proof.
  unfold _extract_tool_calls, tier1, tier2. intros ->.
  destruct (method2 response []); [congruence|reflexivity].
Qed.

Lemma extract_tier3 response :
  tier1 response = [] -> tier2 response = [] ->
  _extract_tool_calls response = tier3 response.
Proof. unfold _extract_tool_calls, tier1, tier2, tier3. intros -> ->. reflexivity. Qed.

(** ** C5 *)






(** ** C6 *)

(** The suffixes of a text that begin with an opening brace, left to
    right. *)
Fixpoint brace_suffixes (s : string) : list string :=
  match s with
  | "" => []
  | String c s' =>
      (if Ascii.eqb c "{"%char then [s] else []) ++ brace_suffixes s'
  end.

(** What tier 3 does at one opening brace: find the balanced closing brace,
    parse the text between them. *)
Definition candidate_at (suffix : string) : list ToolCall :=
  match balanced suffix 0 with
  | Some obj => candidate obj
  | None => []
  end.

Lemma method3_suffixes s : forall acc,
  method3 s acc = acc ++ flat_map candidate_at (brace_suffixes s).
Proof.
  induction s as [|c s IH]; intros acc.
  - cbn. now rewrite app_nil_r.
  - cbn [method3 brace_suffixes]. rewrite IH.
    destruct (Ascii.eqb c "{").
    + cbn [app flat_map]. unfold candidate_at at 2.
      destruct (balanced (String c s) 0).
      * rewrite append_parsed_candidate, <- app_assoc. reflexivity.
      * reflexivity.
    + reflexivity.
Qed.

Lemma candidate_at_length suffix : (List.length (candidate_at suffix) <= 1)%nat.
Proof.
  unfold candidate_at. destruct (balanced suffix 0); [apply candidate_length | cbn; lia].
Qed.

Lemma flat_map_candidate_at_length l :
  (List.length (flat_map candidate_at l) <= List.length l)%nat.
Proof.
  induction l as [|x l IH]; [cbn; lia|].
  cbn [flat_map]. rewrite List.length_app. cbn [List.length].
  pose proof (candidate_at_length x). lia.
Qed.

Lemma brace_suffixes_length s : List.length (brace_suffixes s) = count_char "{"%char s.
Proof.
  induction s as [|c s IH]; [reflexivity|].
  cbn [brace_suffixes count_char]. rewrite List.length_app, IH.
  destruct (Ascii.eqb c "{"); reflexivity.
Qed.

Definition two_objects : string := dq "{'tool':'a'} {'tool':'b'}".

(** Tier 3 can yield more than one request: two objects side by side give
    two. *)
Lemma tier3_two_objects_counterexample :
  tier1 two_objects = [] /\ tier2 two_objects = []
  /\ tier3 two_objects
     = [ {| tool_name := JStr "a"; parameters := JObj []; reasoning := JStr "" |};
         {| tool_name := JStr "b"; parameters := JObj []; reasoning := JStr "" |} ]
  /\ ~ (forall text, (List.length (tier3 text) <= 1)%nat).
Proof.
  split; [vm_compute; reflexivity|]. split; [vm_compute; reflexivity|].
  split; [vm_compute; reflexivity|].
  intros H. specialize (H two_objects). vm_compute in H. lia.
Qed.

(** An object inside an accepted object is accepted too. *)
Lemma tier3_nested_object :
  tier3 (dq "{'tool':'b','parameters':{'tool':'c'}}")
  = [ {| tool_name := JStr "b"; parameters := JObj [("tool", JStr "c")];
         reasoning := JStr "" |};
      {| tool_name := JStr "c"; parameters := JObj []; reasoning := JStr "" |} ].
Proof. vm_compute. reflexivity. Qed.

(** C6, amended.  Tier 3 runs only when tiers 1 and 2 gave nothing.  It
    goes through the text from left to right; at every opening brace it
    looks for the balanced closing brace and parses the text between them;
    it keeps every object with a [tool] key it finds, in that order.  So it
    yields at most as many requests as the text has opening braces. *)
Theorem tier3_keeps_every_object :
  (forall text, tier3 text = flat_map candidate_at (brace_suffixes text))
  /\ (forall text, (List.length (tier3 text) <= count_char "{"%char text)%nat)
  /\ (forall response, tier1 response <> [] -> _extract_tool_calls response = tier1 response)
  /\ (forall response, tier1 response = [] -> tier2 response <> [] ->
        _extract_tool_calls response = tier2 response)
  /\ (forall response, tier1 response = [] -> tier2 response = [] ->
        _extract_tool_calls response = tier3 response).
Proof.
  assert (H3 : forall text, tier3 text = flat_map candidate_at (brace_suffixes text)).
  { intros text. unfold tier3. now rewrite method3_suffixes. }
  split; [exact H3|]. split.
  - intros text. rewrite H3, <- brace_suffixes_length. apply flat_map_candidate_at_length.
  - split; [exact extract_tier1|]. split; [exact extract_tier2 | exact extract_tier3].
Qed.

Lemma tier3_keeps_every_object_witness :
  tier1 two_objects = [] /\ tier2 two_objects = []
  /\ _extract_tool_calls two_objects = tier3 two_objects.
Proof.
  assert (H1 : tier1 two_objects = []) by (vm_compute; reflexivity).
  assert (H2 : tier2 two_objects = []) by (vm_compute; reflexivity).
  split; [exact H1|]. split; [exact H2|].
  exact (proj2 (proj2 (proj2 (proj2 tier3_keeps_every_object))) two_objects H1 H2).
Defined.

End ParserSpec.

(* ================================================================== *)
(** * The repair of a truncated object *)
(* ================================================================== *)

Module RepairSpec.
Import Text Json Agent TextFacts ParserSpec.

(** ** Scanning a text that lacks the first character of the pattern *)










(** ** The two markers *)














(** ** What the caller's repair computes *)







(** ** C3 *)

Definition truncated_object : string :=
  dq "{'tool':'read_file','parameters':{'filepath':'a.py'".

Definition truncated_reply : string := "<|message|>" +:+ truncated_object.




(** What becomes of a recovered request: the turn prints it and then
    leaves the loop; the tool is not run.  The world counts the tool
    executions. *)
Definition truncating_model (n : nat) (history : list Message) : nat * LLMResponse :=
  (n, mkResponse true truncated_reply).

Definition counting_tool (n : nat) (tc : ToolCall) (i total : Z) : nat * string :=
  (S n, "ok").

Lemma recovered_request_not_executed :
  execute_task nat truncating_model counting_tool "prompt" "/ws" LoopSpec.show_value
               "read a.py" 10 O
  = ({| world := O;
        messages := [ mkMessage "system" "prompt";
                      mkMessage "user" "Task: read a.py\nWorkspace: /ws";
                      mkMessage "assistant" truncated_reply ];
        ui := [ Bold "AGENT EXECUTION STARTED"; Bold "Task: read a.py";
                Turn 1 10; Info "Requesting AI action...";
                Recovered (JStr "read_file");
                Warning "No tool calls detected. Model may not understand the format.";
                Bold "AGENT EXECUTION COMPLETED" ] |},
     Break 1).
Proof. vm_compute. reflexivity. Qed.

End RepairSpec.

(* ================================================================== *)
(** * UTF-8: decoding undoes encoding *)
(* ================================================================== *)

Module Utf8Facts.
Import Text Utf8 TextFacts.

Lemma val_byte z : 0 <= z < 256 -> val (byte z) = z.
Proof.
  intros H. unfold val, byte. rewrite N_ascii_embedding; lia.
Qed.

Lemma is_scalar_range c :
  is_scalar c = true -> 0 <= c <= 1114111 /\ (c < 55296 \/ 57343 < c).
Proof. unfold is_scalar, is_codepoint, is_surrogate. lia. Qed.

Ltac dlia := Z.div_mod_to_equations; lia.

Ltac decide_tests :=
  repeat match goal with
         | |- context [?a <? ?b] =>
             first [ rewrite (proj2 (Z.ltb_lt a b)) by dlia
                   | rewrite (proj2 (Z.ltb_ge a b)) by dlia ]
         | |- context [?a <=? ?b] =>
             first [ rewrite (proj2 (Z.leb_le a b)) by dlia
                   | rewrite (proj2 (Z.leb_gt a b)) by dlia ]
         end.

Lemma decode_encode_cp c (rest : string) :
  is_scalar c = true -> decode (encode_cp c +:+ rest) = push c (decode rest).
Proof.
  intros [Hc Hs]%is_scalar_range. unfold encode_cp.
  destruct (Z.ltb_spec c 128); [|destruct (Z.ltb_spec c 2048); [|destruct (Z.ltb_spec c 65536)]].
  - cbn [String.append chr decode]. rewrite val_byte by lia. decide_tests. reflexivity.
  - cbn [String.append chr decode]. unfold is_cont.
    rewrite !val_byte by dlia. decide_tests. cbn [andb].
    replace (_ + _) with c by dlia. reflexivity.
  - cbn [String.append chr decode]. unfold is_cont, is_surrogate.
    rewrite !val_byte by dlia. decide_tests. cbn [andb negb].
    replace (_ + _ + _) with c by dlia. 
    destruct Hs; decide_tests; reflexivity.
  - cbn [String.append chr decode]. unfold is_cont.
    rewrite !val_byte by dlia. decide_tests. cbn [andb].
    replace (_ + _ + _ + _) with c by dlia. reflexivity.
Qed.

Lemma decode_encode (s : list Z) (bytes : string) :
  encode s = Some bytes -> decode bytes = Some s.
Proof.
  revert bytes. induction s as [|c s IH]; intros bytes H; cbn [encode] in H.
  - injection H as <-. reflexivity.
  - destruct (is_scalar c) eqn:Hc; [|discriminate H].
    destruct (encode s) as [b|]; [|discriminate H]. injection H as <-.
    rewrite (decode_encode_cp _ _ Hc), (IH b eq_refl). reflexivity.
Qed.

End Utf8Facts.

(* ================================================================== *)
(** * Properties of the workspace *)
(* ================================================================== *)

Module WorkspaceSpec.
Import Text Workspace Utf8Facts.

(** ** Path lookup *)

Lemma kind_root (fs : filesystem) : kind fs [] = Some Dir.
Proof. reflexivity. Qed.

(** Lookup only asks which places are directories. *)
Lemma namei_more_dirs (fs fs' : filesystem) names : forall cur loc,
  (forall q, kind fs q = Some Dir -> kind fs' q = Some Dir) ->
  namei fs cur names = Ok loc -> namei fs' cur names = Ok loc.
Proof.
  induction names as [|name more IH]; intros cur loc Hdirs H; [exact H|].
  cbn [namei] in *. destruct (kind fs cur) as [[bytes|]|] eqn:Hk; try discriminate H.
  rewrite (Hdirs _ Hk). now apply IH.
Qed.

(** Putting a regular file where no directory is keeps the directories. *)
Lemma dirs_kept_by_file (fs : filesystem) (loc : path) bytes :
  kind fs loc <> Some Dir ->
  forall q, kind fs q = Some Dir -> kind (<[loc := File bytes]> fs) q = Some Dir.
Proof.
  intros Hloc q Hq. destruct q as [|x q]; [reflexivity|].
  cbn [kind] in *. rewrite lookup_insert_ne; [exact Hq|].
  intros ->. apply Hloc. exact Hq.
Qed.

Lemma kind_written (fs : filesystem) (loc : path) bytes :
  kind fs loc <> Some Dir -> kind (<[loc := File bytes]> fs) loc = Some (File bytes).
Proof.
  intros Hloc. destruct loc as [|x loc]; [now contradiction Hloc|].
  cbn [kind]. apply lookup_insert_eq.
Qed.

(** ** The three operations on a path outside the root *)

Lemma read_file_outside (root : path) (fs : filesystem) (filepath : string) :
  inside root (joinpath root filepath) = false -> read_file root fs filepath = None.
Proof. intros H. unfold read_file. rewrite H. reflexivity. Qed.

Lemma write_file_outside (root : path) (fs : filesystem) (filepath : string) content :
  inside root (joinpath root filepath) = false ->
  write_file root fs filepath content = (fs, false).
Proof. intros H. unfold write_file. rewrite H. reflexivity. Qed.

Lemma delete_file_outside (root : path) (fs : filesystem) (filepath : string) :
  inside root (joinpath root filepath) = false ->
  delete_file root fs filepath = (fs, false).
Proof. intros H. unfold delete_file. rewrite H. reflexivity. Qed.

(** A workspace and a file system for the examples. *)
Definition project : path := ["home"; "user"; "project"].

Definition disk : filesystem :=
  <[ ["home"; "user"; "project"; "src"; "main.py"] := File "print(1)" ]>
  (<[ ["home"; "user"; "project"; "src"] := Dir ]>
  (<[ ["home"; "user"; "project"] := Dir ]>
  (<[ ["home"; "user"] := Dir ]>
  (<[ ["home"] := Dir ]>
  (<[ ["etc"; "passwd"] := File "root:x:0:0" ]>
  (<[ ["etc"] := Dir ]> ∅)))))).

(** C1.  A path that, joined to the root and resolved, is not the root or
    below it is refused by all three operations through their ordinary
    results: [read_file] gives [None], [write_file] and [delete_file] give
    [False], and the file system they return is the one they were given,
    whatever it holds.  [../../etc/passwd] and [/etc/passwd] are such
    paths for the workspace [/home/user/project]. *)
Theorem outside_root_rejected (root : path) (fs : filesystem) (filepath : string)
    (content : list Z) :
  is_relative_to (resolve (joinpath root filepath)) root = false ->
  read_file root fs filepath = None
  /\ write_file root fs filepath content = (fs, false)
  /\ delete_file root fs filepath = (fs, false).
Proof.
  intros H. split; [|split].
  - now apply read_file_outside.
  - now apply write_file_outside.
  - now apply delete_file_outside.
Qed.

Lemma outside_root_rejected_witness :
  resolve (joinpath project "../../etc/passwd") = ["home"; "etc"; "passwd"]
  /\ kind disk ["etc"; "passwd"] = Some (File "root:x:0:0")
  /\ read_file project disk "../../etc/passwd" = None
  /\ write_file project disk "../../etc/passwd" [120] = (disk, false)
  /\ delete_file project disk "../../etc/passwd" = (disk, false)
  /\ read_file project disk "/etc/passwd" = None
  /\ delete_file project disk "/etc/passwd" = (disk, false).
Proof.
  split; [reflexivity|]. split; [reflexivity|].
  destruct (outside_root_rejected project disk "../../etc/passwd" [120] eq_refl)
    as (Hr & Hw & Hd).
  destruct (outside_root_rejected project disk "/etc/passwd" [120] eq_refl)
    as (Hr' & _ & Hd').
  repeat split; assumption.
Defined.

(** ** [delete_file] *)


Lemma delete_file_regular (root : path) (fs : filesystem) (filepath : string) loc bytes :
  inside root (joinpath root filepath) = true ->
  namei fs [] (joinpath root filepath) = Ok loc -> kind fs loc = Some (File bytes) ->
  delete_file root fs filepath = (delete loc fs, true).
Proof.
  intros Hin Hn Hk. unfold delete_file, exists_, unlink.
  rewrite Hin. cbn [negb]. rewrite Hn, Hk. reflexivity.
Qed.

Lemma delete_file_missing (root : path) (fs : filesystem) (filepath : string) :
  exists_ fs (joinpath root filepath) = false ->
  delete_file root fs filepath = (fs, false).
Proof.
  intros He. unfold delete_file. rewrite He.
  destruct (inside root (joinpath root filepath)); reflexivity.
Qed.




(** ** Writing, then reading *)

(** After a successful [mkdir], looking the names up ends at a directory,
    and what was a directory before still is. *)
Lemma mkdir_p_dirs names : forall (fs fs1 : filesystem) (cur : path),
  kind fs cur = Some Dir ->
  mkdir_p fs cur names = (fs1, Ok tt) ->
  (forall q, kind fs q = Some Dir -> kind fs1 q = Some Dir)
  /\ exists dir, namei fs1 cur names = Ok dir /\ kind fs1 dir = Some Dir.
Proof.
  induction names as [|name more IH]; intros fs fs1 cur Hcur H; cbn [mkdir_p] in H.
  - injection H as <-. split; [auto|]. exists cur. split; [reflexivity | exact Hcur].
  - destruct (kind fs (enter cur name)) as [[bytes|]|] eqn:Hnext.
    + discriminate H.
    + destruct (IH _ _ _ Hnext H) as (Hkeep & dir & Hn & Hd).
      split; [exact Hkeep|]. exists dir. split; [|exact Hd].
      cbn [namei]. now rewrite (Hkeep _ Hcur).
    + assert (Hmore : forall q, kind fs q = Some Dir
                                -> kind (<[enter cur name := Dir]> fs) q = Some Dir).
      { intros q Hq. destruct q as [|x q]; [reflexivity|].
        cbn [kind] in *. rewrite lookup_insert_ne; [exact Hq|].
        intros E. rewrite E in Hnext. cbn [kind] in Hnext. congruence. }
      assert (Hmade : kind (<[enter cur name := Dir]> fs) (enter cur name) = Some Dir).
      { destruct (enter cur name) as [|x q]; [reflexivity|].
        cbn [kind]. apply lookup_insert_eq. }
      destruct (IH _ _ _ Hmade H) as (Hkeep & dir & Hn & Hd).
      split; [intros q Hq; apply Hkeep, Hmore, Hq|].
      exists dir. split; [|exact Hd].
      cbn [namei]. now rewrite (Hkeep _ (Hmore _ Hcur)).
Qed.

Lemma universal_newlines_without_cr (s : list Z) :
  ~ In 13 s -> universal_newlines s = s.
Proof.
  induction s as [|c s IH]; intros H; [reflexivity|].
  cbn [universal_newlines]. destruct (Z.eqb_spec c 13) as [-> | Hc].
  - exfalso. apply H. now left.
  - rewrite IH; [reflexivity|]. intros Hin. apply H. now right.
Qed.

Lemma write_file_success (root : path) (fs fs' : filesystem) (filepath : string) content :
  write_file root fs filepath content = (fs', true) ->
  exists fs1 loc bytes,
    inside root (joinpath root filepath) = true
    /\ mkdir_p fs [] (parent (joinpath root filepath)) = (fs1, Ok tt)
    /\ namei fs1 [] (joinpath root filepath) = Ok loc
    /\ kind fs1 loc <> Some Dir
    /\ Utf8.encode content = Some bytes
    /\ fs' = <[loc := File bytes]> fs1.
Proof.
  unfold write_file, write_text. intros H.
  destruct (inside root (joinpath root filepath)); [|discriminate H]. cbn [negb] in H.
  destruct (mkdir_p fs [] (parent (joinpath root filepath))) as [fs1 [[]|e]];
    [|discriminate H].
  destruct (namei fs1 [] (joinpath root filepath)) as [loc|e] eqn:Hn; [|discriminate H].
  destruct (Utf8.encode content) as [bytes|] eqn:He.
  - exists fs1, loc, bytes.
    destruct (kind fs1 loc) as [[old|]|] eqn:Hk; try discriminate H;
      injection H as <-; repeat split; congruence.
  - destruct (kind fs1 loc) as [[old|]|]; discriminate H.
Qed.

(** The directories on the way to a written file exist afterwards. *)
Lemma parent_after_write (root : path) (fs fs' : filesystem) (filepath : string) content :
  write_file root fs filepath content = (fs', true) ->
  exists dir, namei fs' [] (parent (joinpath root filepath)) = Ok dir
              /\ kind fs' dir = Some Dir.
Proof.
  intros (fs1 & loc & bytes & _ & Hm & _ & Hk & _ & ->)%write_file_success.
  destruct (mkdir_p_dirs _ _ _ _ (kind_root fs) Hm) as (_ & dir & Hn & Hd).
  exists dir. split.
  - exact (namei_more_dirs fs1 _ _ _ _ (dirs_kept_by_file fs1 loc bytes Hk) Hn).
  - exact (dirs_kept_by_file fs1 loc bytes Hk _ Hd).
Qed.

Lemma read_after_write (root : path) (fs fs' : filesystem) (filepath : string) content :
  write_file root fs filepath content = (fs', true) ->
  read_file root fs' filepath = Some (universal_newlines content).
Proof.
  intros (fs1 & loc & bytes & Hin & _ & Hn & Hk & He & ->)%write_file_success.
  unfold read_file, read_text. rewrite Hin. cbn [negb].
  rewrite (namei_more_dirs fs1 _ _ _ _ (dirs_kept_by_file fs1 loc bytes Hk) Hn).
  rewrite (kind_written _ _ _ Hk), (decode_encode _ _ He). reflexivity.
Qed.

(** Reading a regular file inside the workspace: the UTF-8 text if the
    bytes are UTF-8, their Latin-1 text if not; never [None]. *)
Lemma read_file_decodes (root : path) (fs : filesystem) (filepath : string) loc bytes :
  inside root (joinpath root filepath) = true ->
  namei fs [] (joinpath root filepath) = Ok loc -> kind fs loc = Some (File bytes) ->
  read_file root fs filepath
  = Some (universal_newlines
            match Utf8.decode bytes with
            | Some text => text
            | None => Utf8.decode_latin1 bytes
            end).
Proof.
  intros Hin Hn Hk. unfold read_file, read_text, latin1. rewrite Hin. cbn [negb].
  rewrite Hn, Hk. destruct (Utf8.decode bytes); reflexivity.
Qed.

(** A text with a carriage return does not come back as it was
    written. *)
Lemma carriage_return_counterexample :
  write_file project disk "notes.txt" [97; 13; 98]
  = (<[ ["home"; "user"; "project"; "notes.txt"] := File (String "a" (String cr "b")) ]> disk,
     true)
  /\ read_file project
       (<[ ["home"; "user"; "project"; "notes.txt"] := File (String "a" (String cr "b")) ]> disk)
       "notes.txt"
     = Some [97; 10; 98]
  /\ ~ (forall root fs fs' filepath content,
          write_file root fs filepath content = (fs', true) ->
          read_file root fs' filepath = Some content).
Proof.
  assert (Hw : write_file project disk "notes.txt" [97; 13; 98]
               = (<[ ["home"; "user"; "project"; "notes.txt"]
                     := File (String "a" (String cr "b")) ]> disk, true))
    by (vm_compute; reflexivity).
  assert (Hr : read_file project
                 (<[ ["home"; "user"; "project"; "notes.txt"]
                     := File (String "a" (String cr "b")) ]> disk) "notes.txt"
               = Some [97; 10; 98])
    by (vm_compute; reflexivity).
  split; [exact Hw|]. split; [exact Hr|].
  intros H. specialize (H _ _ _ _ _ Hw). rewrite Hr in H. discriminate H.
Qed.

(** C8, amended.  After a successful [write_file] of [content] to a path,
    [read_file] of the same path returns [content] with every CR LF and
    every lone CR turned into LF, whatever the file held before; so a text
    without carriage returns comes back unchanged.  The directories on the
    way to the file exist afterwards.  A regular file inside the workspace
    whose bytes are not UTF-8 is read as Latin-1, with the same translation
    of line ends, and is never reported as not found. *)
Theorem write_then_read (root : path) (fs : filesystem) (filepath : string) :
  (forall content fs',
      write_file root fs filepath content = (fs', true) ->
      read_file root fs' filepath = Some (universal_newlines content)
      /\ (~ In 13 content -> read_file root fs' filepath = Some content)
      /\ exists dir, namei fs' [] (parent (joinpath root filepath)) = Ok dir
                     /\ kind fs' dir = Some Dir)
  /\ (forall loc bytes,
        inside root (joinpath root filepath) = true ->
        namei fs [] (joinpath root filepath) = Ok loc -> kind fs loc = Some (File bytes) ->
        Utf8.decode bytes = None ->
        read_file root fs filepath
        = Some (universal_newlines (Utf8.decode_latin1 bytes)))
  /\ (forall loc bytes,
        inside root (joinpath root filepath) = true ->
        namei fs [] (joinpath root filepath) = Ok loc -> kind fs loc = Some (File bytes) ->
        read_file root fs filepath <> None).
Proof.
  split; [|split].
  - intros content fs' Hw. pose proof (read_after_write _ _ _ _ _ Hw) as Hr.
    split; [exact Hr|]. split; [|exact (parent_after_write _ _ _ _ _ Hw)].
    intros Hcr. rewrite Hr. f_equal.
    now apply universal_newlines_without_cr.
  - intros loc bytes Hin Hn Hk Hd.
    rewrite (read_file_decodes _ _ _ _ _ Hin Hn Hk), Hd. reflexivity.
  - intros loc bytes Hin Hn Hk.
    rewrite (read_file_decodes _ _ _ _ _ Hin Hn Hk). discriminate.
Qed.

(** A file that holds the single byte E9, which is Latin-1 for e-acute and
    is not UTF-8. *)
Definition latin_disk : filesystem :=
  <[ ["home"; "user"; "project"; "old.txt"] := File (String (Utf8.byte 233) "") ]> disk.

Lemma write_then_read_witness :
  snd (write_file project disk "docs/new/readme.txt" [104; 233; 10; 8364]) = true
  /\ read_file project
       (fst (write_file project disk "docs/new/readme.txt" [104; 233; 10; 8364]))
       "docs/new/readme.txt"
     = Some [104; 233; 10; 8364]
  /\ Utf8.decode (String (Utf8.byte 233) "") = None
  /\ read_file project latin_disk "old.txt" = Some [233].
Proof.
  assert (Hok : snd (write_file project disk "docs/new/readme.txt" [104; 233; 10; 8364])
                = true) by (vm_compute; reflexivity).
  split; [exact Hok|].
  destruct (write_then_read project disk "docs/new/readme.txt") as (Hrt & _).
  destruct (write_then_read project latin_disk "old.txt") as (_ & Hlatin & _).
  split; [|split; [reflexivity|]].
  - refine (proj1 (proj2 (Hrt [104; 233; 10; 8364] _ _)) _).
    + destruct (write_file project disk "docs/new/readme.txt" [104; 233; 10; 8364])
        as [fs' ok]. cbn [snd] in Hok. cbn [fst]. now rewrite Hok.
    + cbn. intros [H | [H | [H | [H | []]]]]; discriminate H.
  - exact (Hlatin ["home"; "user"; "project"; "old.txt"] (String (Utf8.byte 233) "")
             eq_refl eq_refl eq_refl eq_refl).
Defined.

End WorkspaceSpec.

(* ================================================================== *)
(** * Properties of running one tool call *)
(* ================================================================== *)

Module DispatchSpec.
Import Text Json Agent Registry Dispatch.

Definition approves (line : string) : Prop :=
  lower (strip line) = "y" \/ lower (strip line) = "yes".

Lemma decide_on_executes choice tool kwargs lines does r call :
  play (decide_on choice tool kwargs) lines does = Some (r, Some call) ->
  choice = "y" \/ choice = "yes".
Proof.
  unfold decide_on.
  destruct (String.eqb_spec choice "y") as [-> | _]; [now left|].
  destruct (String.eqb_spec choice "yes") as [-> | _]; [now right|].
  cbn. intros H. discriminate H.
Qed.

Lemma decide_on_call choice tool kwargs lines does r call :
  play (decide_on choice tool kwargs) lines does = Some (r, Some call) ->
  call = (tool, kwargs).
Proof.
  unfold decide_on. destruct (_ || _); cbn; intros H; [|discriminate H].
  now injection H as _ <-.
Qed.

(** A call that is made went through the gate. *)
Lemma call_is_gated (format_value : json -> string)
    (tools : list Tool) (tool_call : ToolCall) (index total : Z)
    (lines : list string) (does : execution) r tool kwargs :
  play (_exec_tool format_value tools tool_call index total) lines does
  = Some (r, Some (tool, kwargs)) ->
  _find_tool tools (tool_name tool_call) = Some tool
  /\ Agent.parameters tool_call = JObj kwargs
  /\ (requires_confirmation tool = true -> exists line, In line lines /\ approves line).
Proof.
  unfold _exec_tool.
  destruct (_find_tool tools (tool_name tool_call)) as [found|]; [|cbn; discriminate].
  destruct (Agent.parameters tool_call) as [| | | | | |members]; try (cbn; discriminate).
  destruct (requires_confirmation found) eqn:Hconf.
  - destruct lines as [|line more]; [cbn; discriminate|].
    cbn [play].
    destruct (String.eqb (lower (strip line)) "v" && dict_has "content" members).
    + destruct more as [|line' more']; [cbn; discriminate|].
      cbn [play]. intros H.
      pose proof (decide_on_call _ _ _ _ _ _ _ H) as Hc.
      apply decide_on_executes in H. injection Hc as <- <-.
      split; [reflexivity|]. split; [reflexivity|].
      intros _. exists line'. split; [right; now left | exact H].
    + intros H.
      pose proof (decide_on_call _ _ _ _ _ _ _ H) as Hc.
      apply decide_on_executes in H. injection Hc as <- <-.
      split; [reflexivity|]. split; [reflexivity|].
      intros _. exists line. split; [now left | exact H].
  - cbn. intros H. injection H as _ <- <-. rewrite Hconf.
    split; [reflexivity|]. split; [reflexivity|]. discriminate.
Qed.

(** The gate before a tool: [execute] is called only for a registered tool,
    with the request's parameters, which are an object; and for a tool that
    requires confirmation only after a line that, stripped and lower-cased,
    is [y] or [yes] was typed.  A tool that requires none is run without
    reading a line. *)
Theorem tool_runs_only_when_approved (format_value : json -> string)
    (tools : list Tool) (tool_call : ToolCall) (index total : Z)
    (lines : list string) (does : execution) :
  (forall r tool kwargs,
      play (_exec_tool format_value tools tool_call index total) lines does
      = Some (r, Some (tool, kwargs)) ->
      _find_tool tools (tool_name tool_call) = Some tool
      /\ Agent.parameters tool_call = JObj kwargs
      /\ (requires_confirmation tool = true -> exists line, In line lines /\ approves line))
  /\ (forall tool kwargs,
        _find_tool tools (tool_name tool_call) = Some tool ->
        Agent.parameters tool_call = JObj kwargs ->
        requires_confirmation tool = false ->
        exists r, play (_exec_tool format_value tools tool_call index total) [] does
                  = Some (r, Some (tool, kwargs))).
Proof.
  split.
  - intros r tool kwargs. apply call_is_gated.
  - intros tool kwargs Hfind Hparams Hconf. unfold _exec_tool.
    rewrite Hfind, Hparams, Hconf. cbn. eexists. reflexivity.
Qed.

Definition ok_result : Tools.ToolResult :=
  {| Tools.success := true; Tools.output := "print(1)"; Tools.error := None;
     Tools.metadata := [] |}.

Definition create_call : ToolCall :=
  {| tool_name := JStr "create_file";
     Agent.parameters := JObj [("filepath", JStr "a.py"); ("content", JStr "print(1)")];
     reasoning := JStr "" |}.

Lemma tool_runs_only_when_approved_witness :
  play (_exec_tool LoopSpec.show_value get_all_tools create_call 1 1) ["v"; " Yes "] (Returned ok_result)
  = Some (Said "print(1)",
          Some (CreateFileTool, [("filepath", JStr "a.py"); ("content", JStr "print(1)")]))
  /\ exists line, In line ["v"; " Yes "] /\ approves line.
Proof.
  assert (H : play (_exec_tool LoopSpec.show_value get_all_tools create_call 1 1) ["v"; " Yes "]
                (Returned ok_result)
              = Some (Said "print(1)",
                      Some (CreateFileTool,
                            [("filepath", JStr "a.py"); ("content", JStr "print(1)")])))
    by (vm_compute; reflexivity).
  split; [exact H|].
  exact (proj2 (proj2 (proj1 (tool_runs_only_when_approved LoopSpec.show_value get_all_tools create_call 1 1
                                ["v"; " Yes "] (Returned ok_result)) _ _ _ H)) eq_refl).
Defined.

(** With the standard tools, [read_file] is the only one that runs
    unprompted: a call made to any other tool of [get_all_tools] - the
    five whose constructors say nothing about confirmation included -
    was approved at the console. *)
Theorem only_read_file_runs_unprompted (format_value : json -> string)
    (tool_call : ToolCall) (index total : Z) (lines : list string) (does : execution)
    (r : reply) (tool : Tool) (kwargs : dict) :
  play (_exec_tool format_value get_all_tools tool_call index total) lines does
  = Some (r, Some (tool, kwargs)) ->
  In tool get_all_tools
  /\ (tool = ReadFileTool \/ exists line, In line lines /\ approves line).
Proof.
  intros H. apply call_is_gated in H as (Hfind & _ & Hgate).
  assert (Hin : In tool get_all_tools).
  { unfold _find_tool in Hfind. destruct (tool_name tool_call); try discriminate Hfind.
    now apply List.find_some in Hfind as [Hin _]. }
  split; [exact Hin|].
  cbn in Hin. decompose [or] Hin; subst;
    first [ now left | right; now apply Hgate | contradiction ].
Qed.

Definition list_call : ToolCall :=
  {| tool_name := JStr "list_files";
     Agent.parameters := JObj [("pattern", JStr "*.py")];
     reasoning := JStr "" |}.

Lemma only_read_file_runs_unprompted_witness :
  play (_exec_tool LoopSpec.show_value get_all_tools list_call 1 1) ["Y"] (Returned ok_result)
  = Some (Said "print(1)", Some (ListFilesTool, [("pattern", JStr "*.py")]))
  /\ (ListFilesTool = ReadFileTool \/ exists line, In line ["Y"] /\ approves line)
  /\ play (_exec_tool LoopSpec.show_value get_all_tools list_call 1 1) ["n"]
           (Returned ok_result)
      = Some (Said "Cancelled by user", None).
Proof.
  assert (H : play (_exec_tool LoopSpec.show_value get_all_tools list_call 1 1) ["Y"]
                (Returned ok_result)
              = Some (Said "print(1)", Some (ListFilesTool, [("pattern", JStr "*.py")])))
    by (vm_compute; reflexivity).
  split; [exact H|]. split; [|vm_compute; reflexivity].
  exact (proj2 (only_read_file_runs_unprompted LoopSpec.show_value list_call 1 1 ["Y"]
                  (Returned ok_result) _ _ _ H)).
Defined.

Lemma said_error_nonempty text : "Error: " +:+ text <> "".
Proof. cbn. discriminate. Qed.

Lemma or_default_nonempty s : Tools.or_default s "Success" <> "".
Proof. destruct s; cbn; discriminate. Qed.

Lemma decide_on_nonempty choice tool kwargs lines does text call :
  play (decide_on choice tool kwargs) lines does = Some (Said text, call) -> text <> "".
Proof.
  unfold decide_on. destruct (_ || _); cbn.
  - destruct does as [result|e].
    + destruct (Tools.success result); intros H; injection H as <- _;
        [apply or_default_nonempty | apply said_error_nonempty].
    + intros H; injection H as <- _. apply said_error_nonempty.
  - intros H; injection H as <- _. discriminate.
Qed.

(** Whatever the request, the lines typed and the tool do, the text
    [_exec_tool] returns is never empty: an empty output of a successful
    tool is replaced by [Success], every other end has a fixed prefix. *)
Theorem exec_tool_text_never_empty (format_value : json -> string)
    (tools : list Tool) (tool_call : ToolCall) (index total : Z)
    (lines : list string) (does : execution) (text : string) (call : option (Tool * dict)) :
  play (_exec_tool format_value tools tool_call index total) lines does
  = Some (Said text, call) ->
  text <> "".
Proof.
  unfold _exec_tool.
  destruct (_find_tool tools (tool_name tool_call)) as [found|].
  - destruct (Agent.parameters tool_call) as [| | | | | |members]; try (cbn; discriminate).
    destruct (requires_confirmation found).
    + destruct lines as [|line more]; [cbn; discriminate|]. cbn [play].
      destruct (String.eqb (lower (strip line)) "v" && dict_has "content" members).
      * destruct more as [|line' more']; [cbn; discriminate|]. cbn [play].
        apply decide_on_nonempty.
      * apply decide_on_nonempty.
    + cbn. destruct does as [result|e].
      * destruct (Tools.success result); intros H; injection H as <- _;
          [apply or_default_nonempty | apply said_error_nonempty].
      * intros H; injection H as <- _. apply said_error_nonempty.
  - cbn. intros H. injection H as <- _. apply said_error_nonempty.
Qed.

Definition empty_result : Tools.ToolResult :=
  {| Tools.success := true; Tools.output := ""; Tools.error := None; Tools.metadata := [] |}.

Definition read_call : ToolCall :=
  {| tool_name := JStr "read_file";
     Agent.parameters := JObj [("filepath", JStr "empty.txt")];
     reasoning := JStr "" |}.

Lemma exec_tool_text_never_empty_witness :
  play (_exec_tool LoopSpec.show_value get_all_tools read_call 1 1) [] (Returned empty_result)
  = Some (Said "Success", Some (ReadFileTool, [("filepath", JStr "empty.txt")]))
  /\ "Success" <> "".
Proof.
  assert (H : play (_exec_tool LoopSpec.show_value get_all_tools read_call 1 1) [] (Returned empty_result)
              = Some (Said "Success", Some (ReadFileTool, [("filepath", JStr "empty.txt")])))
    by (vm_compute; reflexivity).
  split; [exact H|].
  exact (exec_tool_text_never_empty LoopSpec.show_value get_all_tools read_call 1 1 [] (Returned empty_result)
           "Success" _ H).
Defined.

(** A request whose [parameters] are not an object.  For a registered tool
    [_exec_tool] raises [AttributeError] - at [.items()], before any prompt
    and before the [try] - and the parser does hand such requests over: it
    takes whatever value stands under [parameters]. *)
Theorem non_object_parameters_crash (format_value : json -> string)
    (tools : list Tool) (tool_call : ToolCall) (index total : Z) (tool : Tool) :
  _find_tool tools (tool_name tool_call) = Some tool ->
  (forall kwargs, Agent.parameters tool_call <> JObj kwargs) ->
  _exec_tool format_value tools tool_call index total = Finish Crashed
  /\ (forall text d t v,
        loads text = Some (JObj d) -> dict_get "tool" d = Some t ->
        dict_get "parameters" d = Some v ->
        map Agent.parameters (ParserSpec.candidate text) = [v]).
Proof.
  intros Hfind Hnot. split.
  - unfold _exec_tool. rewrite Hfind.
    destruct (Agent.parameters tool_call) as [| | | | | |members]; try reflexivity.
    now contradiction (Hnot members).
  - intros text d t v Hl Ht Hv.
    rewrite (ParserSpec.candidate_object _ _ _ Hl Ht). cbn.
    unfold dict_get_default. now rewrite Hv.
Qed.

Definition bare_reply : string :=
  "```json" +:+ NL +:+ dq "{'tool':'read_file','parameters':'a.py'}" +:+ NL +:+ "```".

Definition bare_call : ToolCall :=
  {| tool_name := JStr "read_file"; Agent.parameters := JStr "a.py"; reasoning := JStr "" |}.

Lemma non_object_parameters_crash_witness :
  _extract_tool_calls bare_reply = [bare_call]
  /\ _exec_tool LoopSpec.show_value get_all_tools bare_call 1 1 = Finish Crashed.
Proof.
  split; [vm_compute; reflexivity|].
  refine (proj1 (non_object_parameters_crash LoopSpec.show_value get_all_tools bare_call 1 1 ReadFileTool
                   eq_refl _)).
  intros kwargs H. discriminate H.
Defined.

End DispatchSpec.

(* ================================================================== *)
(** * Properties of the tool descriptors and the file tools *)
(* ================================================================== *)

Module RegistrySpec.
Import Text Workspace Tools Registry Utf8Facts WorkspaceSpec.

(** ** [to_openai_tool] *)

Definition is_plain (v : param_doc) : bool :=
  match v with
  | Plain _ => true
  | Described _ => false
  end.

Lemma required_names_fails items :
  required_names items = AttributeError
  <-> existsb (fun kv => is_plain (snd kv)) items = true.
Proof.
  induction items as [|[k v] items IH]; cbn [required_names existsb snd].
  - split; discriminate.
  - destruct v as [fields|text]; cbn [is_required is_plain orb].
    + destruct (List.find _ fields) as [[? ?]|];
        (destruct (required_names items) as [names|]; [|tauto]);
        (split; [discriminate | intros H; apply IH in H; discriminate H]).
    + tauto.
Qed.

Definition exports (t : Tool) : bool :=
  match to_openai_tool t with
  | Value _ => true
  | AttributeError => false
  end.

(** [to_openai_tool] raises [AttributeError] exactly for a tool one of
    whose parameters is documented by a plain text; when it returns, a
    parameter is required unless its dictionary has an empty text under
    [required].  Of the nine standard tools five are of the first kind:
    only [read_file], [create_file], [write_file] and [run_command] can be
    exported. *)
Theorem openai_export_needs_dictionaries :
  (forall t,
      to_openai_tool t = AttributeError
      <-> exists k text, In (k, Plain text) (parameters t))
  /\ (forall t,
        (forall k v, In (k, v) (parameters t) ->
                     exists fields, v = Described fields
                                    /\ List.find (fun kv => String.eqb (fst kv) "required") fields
                                       = None) ->
        to_openai_tool t
        = Value {| function_name := name t; function_description := description t;
                   properties := parameters t; required := map fst (parameters t) |})
  /\ map name (List.filter exports get_all_tools)
     = ["read_file"; "create_file"; "write_file"; "run_command"]
  /\ map name (List.filter (fun t => negb (exports t)) get_all_tools)
     = ["list_files"; "search_code"; "analyze_code"; "get_tree"; "file_info"].
Proof.
  split; [|split; [|split; reflexivity]].
  - intros t. unfold to_openai_tool.
    destruct (required_names (parameters t)) as [names|] eqn:Hr.
    + split; [discriminate|]. intros (k & text & Hin). exfalso.
      assert (Hex : existsb (fun kv => is_plain (snd kv)) (parameters t) = true).
      { apply List.existsb_exists. exists (k, Plain text). split; [exact Hin | reflexivity]. }
      apply required_names_fails in Hex. congruence.
    + split; [|reflexivity]. intros _.
      apply required_names_fails in Hr. apply List.existsb_exists in Hr.
      destruct Hr as ([k v] & Hin & Hp). destruct v as [fields|text]; [discriminate Hp|].
      now exists k, text.
  - intros t Hall. unfold to_openai_tool.
    assert (Hr : required_names (parameters t) = Value (map fst (parameters t))).
    { induction (parameters t) as [|[k v] items IH]; [reflexivity|].
      cbn [required_names map fst].
      destruct (Hall k v (or_introl eq_refl)) as (fields & -> & Hnone).
      cbn [is_required]. rewrite Hnone.
      rewrite IH; [reflexivity|]. intros k' v' Hin. apply (Hall k' v'). now right. }
    now rewrite Hr.
Qed.

Lemma openai_export_needs_dictionaries_witness :
  to_openai_tool FileInfoTool = AttributeError
  /\ exports ReadFileTool = true.
Proof.
  split; [|reflexivity].
  apply (proj1 openai_export_needs_dictionaries FileInfoTool).
  exists "filepath", "Path to the file". now left.
Defined.

(** ** The size the file tools report *)

Lemma encode_cp_length c :
  Utf8.is_scalar c = true ->
  (1 <= String.length (Utf8.encode_cp c))%nat
  /\ (String.length (Utf8.encode_cp c) = 1%nat <-> c < 128).
Proof.
  intros [Hc _]%is_scalar_range. unfold Utf8.encode_cp.
  destruct (Z.ltb_spec c 128); [cbn; split; [lia | tauto]|].
  destruct (Z.ltb_spec c 2048); [cbn; split; [lia | split; [discriminate | lia]]|].
  destruct (Z.ltb_spec c 65536); cbn; (split; [lia | split; [discriminate | lia]]).
Qed.

Definition is_ascii (content : list Z) : Prop := Forall (fun c => c < 128) content.

(** UTF-8 needs at least one byte for each code point, and exactly one only
    for ASCII. *)
Lemma encode_length content bytes :
  Utf8.encode content = Some bytes ->
  (List.length content <= String.length bytes)%nat
  /\ (List.length content = String.length bytes <-> is_ascii content).
Proof.
  revert bytes. induction content as [|c content IH]; intros bytes H; cbn [Utf8.encode] in H.
  - injection H as <-. cbn. split; [lia|]. split; [constructor | reflexivity].
  - destruct (Utf8.is_scalar c) eqn:Hc; [|discriminate H].
    destruct (Utf8.encode content) as [b|]; [|discriminate H]. injection H as <-.
    destruct (IH b eq_refl) as [Hle Hiff].
    destruct (encode_cp_length c Hc) as [H1 Hone].
    rewrite TextFacts.length_sapp. cbn [List.length]. split; [lia|]. split.
    + intros Heq. assert (String.length (Utf8.encode_cp c) = 1%nat) by lia.
      constructor; [now apply Hone | apply Hiff; lia].
    + intros Ha. inversion Ha as [|? ? Hhead Htail]; subst.
      apply Hone in Hhead. apply Hiff in Htail. lia.
Qed.

(** What [create_file] and [write_file] report as the number of bytes is
    the number of characters of the content.  The file written holds at
    least that many bytes, and exactly that many only when the content is
    ASCII. *)
Theorem reported_bytes_are_characters (root : path) (fs fs' : filesystem)
    (filepath : string) (content : list Z) (reason : string) (r : ToolResult) :
  create_file root fs filepath content reason = (fs', r)
  \/ write_file_tool root fs filepath content = (fs', r) ->
  success r = true ->
  In ("bytes", MInt (len content)) (metadata r)
  /\ exists loc bytes,
       namei fs' [] (joinpath root filepath) = Ok loc
       /\ kind fs' loc = Some (File bytes)
       /\ len content <= Z.of_nat (String.length bytes)
       /\ (len content = Z.of_nat (String.length bytes) <-> is_ascii content).
Proof.
  intros Hrun Hok.
  assert (Hw : write_file root fs filepath content = (fs', true)
               /\ In ("bytes", MInt (len content)) (metadata r)).
  { unfold create_file, write_file_tool in Hrun.
    destruct (write_file root fs filepath content) as [fs1 ok].
    destruct ok; destruct Hrun as [H | H]; injection H as <- <-;
      try discriminate Hok; (split; [reflexivity | cbn; tauto]). }
  destruct Hw as [Hw Hmeta]. split; [exact Hmeta|].
  destruct (write_file_success _ _ _ _ _ Hw) as (fs1 & loc & bytes & _ & _ & Hn & Hk & He & ->).
  exists loc, bytes.
  split; [exact (namei_more_dirs fs1 _ _ _ _ (dirs_kept_by_file fs1 loc bytes Hk) Hn)|].
  split; [exact (kind_written _ _ _ Hk)|].
  destruct (encode_length _ _ He) as [Hle Hiff]. unfold len. split; [lia|].
  rewrite <- Hiff. lia.
Qed.

Lemma reported_bytes_are_characters_witness :
  success (snd (create_file project disk "cafe.txt" [99; 97; 102; 233] "menu")) = true
  /\ In ("bytes", MInt 4)
        (metadata (snd (create_file project disk "cafe.txt" [99; 97; 102; 233] "menu")))
  /\ kind (fst (create_file project disk "cafe.txt" [99; 97; 102; 233] "menu"))
          ["home"; "user"; "project"; "cafe.txt"]
     = Some (File (Utf8.encode_cp 99 +:+ Utf8.encode_cp 97 +:+ Utf8.encode_cp 102
                   +:+ Utf8.encode_cp 233)).
Proof.
  assert (Hok : success (snd (create_file project disk "cafe.txt" [99; 97; 102; 233] "menu"))
                = true) by (vm_compute; reflexivity).
  split; [exact Hok|].
  destruct (create_file project disk "cafe.txt" [99; 97; 102; 233] "menu") as [fs' r] eqn:E.
  cbn [fst snd] in *.
  destruct (reported_bytes_are_characters project disk fs' "cafe.txt" [99; 97; 102; 233]
              "menu" r (or_introl E) Hok) as [Hmeta _].
  split; [exact Hmeta|].
  replace fs' with (fst (create_file project disk "cafe.txt" [99; 97; 102; 233] "menu"))
    by (rewrite E; reflexivity).
  vm_compute. reflexivity.
Defined.

(** ** The results of [run_command] *)

(** Every result of [RunCommandTool.execute] carries an error text exactly
    when it reports a failure, and the output of a success is never empty
    (an empty one is replaced by a placeholder). *)
Theorem run_command_error_iff_failure (os : list string -> Z -> string -> outcome)
    (safe_mode : bool) (cwd command reason : string) :
  let r := finish os (execute safe_mode cwd command reason) in
  (success r = true <-> error r = None)
  /\ (success r = true -> output r <> "").
Proof.
  intros r. subst r. unfold execute.
  destruct (split_command command) as [|base rest]; [cbn; split; [split|]; discriminate|].
  destruct (safe_mode && negb (is_allowed base)); [cbn; split; [split|]; discriminate|].
  cbn [finish].
  destruct (os (base :: rest) 60 cwd) as [code out err| | |];
    try (cbn; split; [split|]; discriminate).
  cbn [result_of success error output].
  destruct (code =? 0); split; try (split; congruence); try discriminate.
  intros _. destruct err; [destruct out|]; cbn; try discriminate.
  destruct (out +:+ _) eqn:E; cbn; [|discriminate].
  destruct out; discriminate E.
Qed.

(** A process that ends well and prints nothing. *)
Definition quiet (cmd_parts : list string) (timeout : Z) (cwd : string) : outcome :=
  Completed 0 "" "".

Lemma run_command_error_iff_failure_witness :
  output (finish quiet (execute false "/ws" "make all" "build")) = "(no output)"
  /\ output (finish quiet (execute false "/ws" "make all" "build")) <> "".
Proof.
  split; [vm_compute; reflexivity|].
  apply (proj2 (run_command_error_iff_failure quiet false "/ws" "make all" "build")).
  vm_compute. reflexivity.
Defined.

End RegistrySpec.

(* ================================================================== *)
(** * More properties of the workspace *)
(* ================================================================== *)

Module WorkspaceMoreSpec.
Import Text Workspace WorkspaceMore Utf8Facts WorkspaceSpec.

(** ** Path lookup, continued *)

Lemma namei_resolves (fs : filesystem) names : forall cur loc,
  namei fs cur names = Ok loc -> loc = fold_left enter names cur.
Proof.
  induction names as [|name more IH]; intros cur loc H; cbn [namei fold_left] in *.
  - now injection H as <-.
  - destruct (kind fs cur) as [[bytes|]|]; try discriminate H. now apply IH.
Qed.

Lemma namei_app (fs : filesystem) a b : forall cur,
  namei fs cur (a ++ b)
  = match namei fs cur a with
    | Ok mid => namei fs mid b
    | Raise e => Raise e
    end.
Proof.
  induction a as [|name more IH]; intros cur; cbn [namei app]; [reflexivity|].
  destruct (kind fs cur) as [[bytes|]|]; try reflexivity. apply IH.
Qed.

(** Looking up [names ++ [last]] succeeds only through a directory. *)
Lemma namei_last (fs : filesystem) names last loc :
  namei fs [] (names ++ [last]) = Ok loc ->
  exists dir, namei fs [] names = Ok dir /\ kind fs dir = Some Dir /\ loc = enter dir last.
Proof.
  rewrite namei_app. destruct (namei fs [] names) as [dir|e]; [|discriminate].
  cbn [namei]. destruct (kind fs dir) as [[bytes|]|] eqn:Hk; try discriminate.
  intros H. injection H as <-. now exists dir.
Qed.

(** [mkdir] of a directory that exists changes nothing. *)
Lemma mkdir_p_existing names : forall (fs : filesystem) cur dir,
  namei fs cur names = Ok dir -> kind fs dir = Some Dir ->
  mkdir_p fs cur names = (fs, Ok tt).
Proof.
  induction names as [|name more IH]; intros fs cur dir Hn Hd; [reflexivity|].
  cbn [namei mkdir_p] in *.
  destruct (kind fs cur) as [[bytes|]|]; try discriminate Hn.
  assert (Hnext : kind fs (enter cur name) = Some Dir).
  { destruct more as [|name' more'].
    - cbn in Hn. injection Hn as <-. exact Hd.
    - cbn [namei] in Hn.
      destruct (kind fs (enter cur name)) as [[bytes|]|]; try discriminate Hn. reflexivity. }
  rewrite Hnext. now apply IH with dir.
Qed.

Lemma full_path_split (p : path) : p <> [] -> p = parent p ++ [List.last p ""].
Proof. intros H. unfold parent, up. now apply app_removelast_last. Qed.

(** A path that names a regular file: its parent is looked up through
    directories. *)
Lemma parent_of_file (fs : filesystem) (p : path) loc bytes :
  namei fs [] p = Ok loc -> kind fs loc = Some (File bytes) ->
  exists dir, namei fs [] (parent p) = Ok dir /\ kind fs dir = Some Dir.
Proof.
  intros Hn Hk.
  assert (Hp : p <> []).
  { intros ->. cbn in Hn. injection Hn as <-. discriminate Hk. }
  rewrite (full_path_split p Hp) in Hn.
  apply namei_last in Hn as (dir & Hd & Hkd & _). now exists dir.
Qed.

(** Removing a regular file keeps the directories. *)
Lemma dirs_kept_by_delete (fs : filesystem) (loc : path) :
  kind fs loc <> Some Dir ->
  forall q, kind fs q = Some Dir -> kind (delete loc fs) q = Some Dir.
Proof.
  intros Hloc q Hq. destruct q as [|x q]; [reflexivity|].
  cbn [kind] in *. rewrite lookup_delete_ne; [exact Hq|].
  intros ->. apply Hloc. exact Hq.
Qed.

(** ** A write that cannot be encoded *)

(** Writing a text that UTF-8 cannot encode (a lone surrogate) to an
    existing file inside the workspace returns [False] - and leaves the
    file empty: it was opened for writing, which truncates it, before the
    text was encoded.  Reading it afterwards gives the empty text. *)
Theorem failed_write_empties_file (root : path) (fs : filesystem) (filepath : string)
    (content : list Z) (loc : path) (old : string) :
  inside root (joinpath root filepath) = true ->
  namei fs [] (joinpath root filepath) = Ok loc ->
  kind fs loc = Some (File old) ->
  Utf8.encode content = None ->
  write_file root fs filepath content = (<[loc := File ""]> fs, false)
  /\ read_file root (<[loc := File ""]> fs) filepath = Some [].
Proof.
  intros Hin Hn Hk He.
  destruct (parent_of_file _ _ _ _ Hn Hk) as (dir & Hpn & Hpd).
  assert (Hnd : kind fs loc <> Some Dir) by congruence.
  split.
  - unfold write_file, write_text. rewrite Hin. cbn [negb].
    rewrite (mkdir_p_existing _ _ _ _ Hpn Hpd), Hn, Hk, He. reflexivity.
  - unfold read_file, read_text. rewrite Hin. cbn [negb].
    rewrite (namei_more_dirs fs _ _ _ _ (dirs_kept_by_file fs loc "" Hnd) Hn).
    rewrite (kind_written _ _ _ Hnd). reflexivity.
Qed.

Lemma failed_write_empties_file_witness :
  Utf8.encode [120; 55296] = None
  /\ write_file project disk "src/main.py" [120; 55296]
     = (<[ ["home"; "user"; "project"; "src"; "main.py"] := File "" ]> disk, false)
  /\ read_file project disk "src/main.py" = Some [112; 114; 105; 110; 116; 40; 49; 41].
Proof.
  split; [reflexivity|]. split; [|vm_compute; reflexivity].
  exact (proj1 (failed_write_empties_file project disk "src/main.py" [120; 55296]
                  ["home"; "user"; "project"; "src"; "main.py"] "print(1)"
                  eq_refl eq_refl eq_refl eq_refl)).
Defined.

(** ** Writing again, and deleting *)

(** After a successful write the file can be written again with any
    encodable text, and then holds exactly the bytes of the second
    text: the last write wins, nothing of the first is kept. *)
Theorem last_write_wins (root : path) (fs fs1 : filesystem) (filepath : string)
    (first second : list Z) (bytes : string) :
  write_file root fs filepath first = (fs1, true) ->
  Utf8.encode second = Some bytes ->
  exists loc,
    namei fs1 [] (joinpath root filepath) = Ok loc
    /\ write_file root fs1 filepath second = (<[loc := File bytes]> fs1, true)
    /\ kind (<[loc := File bytes]> fs1) loc = Some (File bytes)
    /\ read_file root (<[loc := File bytes]> fs1) filepath = Some (universal_newlines second).
Proof.
  intros Hw He.
  destruct (write_file_success _ _ _ _ _ Hw)
    as (fs0 & loc & b1 & Hin & _ & Hn & Hk & _ & ->).
  pose proof (namei_more_dirs fs0 _ _ _ _ (dirs_kept_by_file fs0 loc b1 Hk) Hn) as Hn1.
  pose proof (kind_written fs0 loc b1 Hk) as Hk1.
  destruct (parent_of_file _ _ _ _ Hn1 Hk1) as (dir & Hpn & Hpd).
  assert (Hw2 : write_file root (<[loc := File b1]> fs0) filepath second
                = (<[loc := File bytes]> (<[loc := File b1]> fs0), true)).
  { unfold write_file, write_text. rewrite Hin. cbn [negb].
    rewrite (mkdir_p_existing _ _ _ _ Hpn Hpd), Hn1, Hk1, He. reflexivity. }
  exists loc. split; [exact Hn1|]. split; [exact Hw2|]. split.
  - apply kind_written. congruence.
  - exact (read_after_write _ _ _ _ _ Hw2).
Qed.

Lemma last_write_wins_witness :
  exists loc,
    write_file project (fst (write_file project disk "log.txt" [111; 108; 100]))
               "log.txt" [110; 101; 119]
    = (<[loc := File "new"]> (fst (write_file project disk "log.txt" [111; 108; 100])), true)
    /\ read_file project
         (<[loc := File "new"]> (fst (write_file project disk "log.txt" [111; 108; 100])))
         "log.txt"
       = Some [110; 101; 119].
Proof.
  destruct (last_write_wins project disk (fst (write_file project disk "log.txt" [111; 108; 100]))
              "log.txt" [111; 108; 100] [110; 101; 119] "new")
    as (loc & _ & Hw & _ & Hr); [vm_compute; reflexivity | reflexivity |].
  exists loc. split; [exact Hw | exact Hr].
Defined.

(** A file just written can be deleted; afterwards it is gone for
    [read_file] and [file_exists], and only its entry has left the file
    system. *)
Theorem written_file_can_be_deleted (root : path) (fs fs1 : filesystem) (filepath : string)
    (content : list Z) :
  write_file root fs filepath content = (fs1, true) ->
  exists loc,
    namei fs1 [] (joinpath root filepath) = Ok loc
    /\ delete_file root fs1 filepath = (delete loc fs1, true)
    /\ read_file root (delete loc fs1) filepath = None
    /\ file_exists root (delete loc fs1) filepath = false
    /\ delete_file root (delete loc fs1) filepath = (delete loc fs1, false).
Proof.
  intros Hw.
  destruct (write_file_success _ _ _ _ _ Hw)
    as (fs0 & loc & b1 & Hin & _ & Hn & Hk & _ & ->).
  pose proof (namei_more_dirs fs0 _ _ _ _ (dirs_kept_by_file fs0 loc b1 Hk) Hn) as Hn1.
  pose proof (kind_written fs0 loc b1 Hk) as Hk1.
  set (fs1 := <[loc := File b1]> fs0) in *.
  assert (Hnd : kind fs1 loc <> Some Dir) by congruence.
  pose proof (namei_more_dirs fs1 _ _ _ _ (dirs_kept_by_delete fs1 loc Hnd) Hn1) as Hn2.
  assert (Hgone : kind (delete loc fs1) loc = None).
  { destruct loc as [|x loc]; [discriminate Hk1|]. cbn [kind]. apply lookup_delete_eq. }
  assert (Hex : exists_ (delete loc fs1) (joinpath root filepath) = false).
  { unfold exists_. now rewrite Hn2, Hgone. }
  exists loc. split; [exact Hn1|]. split; [|split; [|split]].
  - exact (delete_file_regular _ _ _ _ _ Hin Hn1 Hk1).
  - unfold read_file, read_text, latin1. rewrite Hin. cbn [negb]. now rewrite Hn2, Hgone.
  - unfold file_exists. now rewrite Hex.
  - now apply delete_file_missing.
Qed.

Lemma written_file_can_be_deleted_witness :
  exists loc,
    delete_file project (fst (write_file project disk "tmp/x.txt" [120])) "tmp/x.txt"
    = (delete loc (fst (write_file project disk "tmp/x.txt" [120])), true)
    /\ read_file project (delete loc (fst (write_file project disk "tmp/x.txt" [120])))
         "tmp/x.txt" = None.
Proof.
  destruct (written_file_can_be_deleted project disk
              (fst (write_file project disk "tmp/x.txt" [120])) "tmp/x.txt" [120])
    as (loc & _ & Hd & Hr & _); [vm_compute; reflexivity|].
  exists loc. split; [exact Hd | exact Hr].
Defined.

(** ** File information *)

(** [file_exists] and [get_file_info] do not test whether the path stays
    inside the workspace: for every path that leads to a regular file they
    report it, with its size - also where [read_file] refuses the path as
    outside the root. *)
Theorem file_info_is_not_confined (st_mtime dir_st_size : path -> Z)
    (root : path) (fs : filesystem) (filepath : string) (loc : path) (bytes : string) :
  namei fs [] (joinpath root filepath) = Ok loc ->
  kind fs loc = Some (File bytes) ->
  file_exists root fs filepath = true
  /\ get_file_info st_mtime dir_st_size root fs filepath
     = Some {| info_path := filepath;
               size := Z.of_nat (String.length bytes);
               modified := st_mtime loc;
               info_is_file := true;
               extension := suffix (joinpath root filepath) |}
  /\ (inside root (joinpath root filepath) = false -> read_file root fs filepath = None).
Proof.
  intros Hn Hk. split; [|split].
  - unfold file_exists, exists_, is_file. now rewrite Hn, Hk.
  - unfold get_file_info, exists_. now rewrite Hn, Hk.
  - apply read_file_outside.
Qed.

Definition no_time (p : path) : Z := 0.
Definition block_size (p : path) : Z := 4096.

Lemma file_info_is_not_confined_witness :
  inside project (joinpath project "../../../etc/passwd") = false
  /\ read_file project disk "../../../etc/passwd" = None
  /\ get_file_info no_time block_size project disk "../../../etc/passwd"
     = Some {| info_path := "../../../etc/passwd"; size := 10; modified := 0;
               info_is_file := true; extension := "" |}.
Proof.
  destruct (file_info_is_not_confined no_time block_size project disk "../../../etc/passwd"
              ["etc"; "passwd"] "root:x:0:0" eq_refl eq_refl) as (_ & Hinfo & Hread).
  split; [reflexivity|]. split; [exact (Hread eq_refl) | exact Hinfo].
Defined.

(** ** Line statistics *)

Definition counted (st : stats) : Z := code_lines st + comment_lines st + blank_lines st.

Lemma count_line_counts (st : stats) (line : list Z) :
  counted (count_line st line) = counted st + 1
  /\ total_lines (count_line st line) = total_lines st
  /\ total_files (count_line st line) = total_files st.
Proof.
  unfold count_line, counted.
  destruct (strip_text line) as [|c rest]; [cbn; lia|].
  destruct (c =? 35); cbn; lia.
Qed.

Lemma count_lines_of_file (lines : list (list Z)) : forall st,
  counted (fold_left count_line lines st) = counted st + Z.of_nat (List.length lines)
  /\ total_lines (fold_left count_line lines st) = total_lines st
  /\ total_files (fold_left count_line lines st) = total_files st.
Proof.
  induction lines as [|line more IH]; intros st; cbn [fold_left List.length].
  - lia.
  - destruct (IH (count_line st line)) as (Hc & Hl & Hf).
    destruct (count_line_counts st line) as (Hc1 & Hl1 & Hf1).
    rewrite Hc, Hl, Hf, Hc1, Hl1, Hf1. lia.
Qed.

(** Whether [count_lines] counts a file: it can be read and is not empty. *)
Definition has_content (root : path) (fs : filesystem) (filepath : string) : bool :=
  match read_file root fs filepath with
  | Some (_ :: _) => true
  | _ => false
  end.

Lemma count_file_counts root fs st filepath :
  total_lines (count_file root fs st filepath) - counted (count_file root fs st filepath)
  = total_lines st - counted st
  /\ total_files (count_file root fs st filepath)
     = total_files st + (if has_content root fs filepath then 1 else 0)
  /\ total_lines st <= total_lines (count_file root fs st filepath).
Proof.
  unfold count_file, has_content.
  destruct (read_file root fs filepath) as [[|c content]|]; try lia.
  match goal with |- context [fold_left count_line ?ls ?s0] =>
    destruct (count_lines_of_file ls s0) as (Hc & Hl & Hf) end.
  rewrite Hc, Hl, Hf. unfold counted. cbn. lia.
Qed.

Lemma count_files_counts root fs files : forall st,
  let st' := fold_left (count_file root fs) files st in
  total_lines st' - counted st' = total_lines st - counted st
  /\ total_files st'
     = total_files st + Z.of_nat (List.length (List.filter (has_content root fs) files))
  /\ total_lines st <= total_lines st'.
Proof.
  induction files as [|f more IH]; intros st; cbn [fold_left List.filter].
  - cbn. lia.
  - destruct (IH (count_file root fs st f)) as (Hc & Hf & Hl).
    destruct (count_file_counts root fs st f) as (Hc1 & Hf1 & Hl1).
    cbn zeta. rewrite Hc, Hf, Hc1, Hf1.
    destruct (has_content root fs f); cbn [List.length]; lia.
Qed.

(** The statistics of [count_lines] add up: every line counted in
    [total_lines] is blank, a comment or code, and counted once.  A file
    that cannot be read, or is empty, adds nothing - not to
    [total_files] either, so that [total_files] can be smaller than the
    number of files listed. *)
Theorem count_lines_adds_up (root : path) (fs : filesystem) (files : list string) :
  let st := count_lines root fs files in
  total_lines st = code_lines st + comment_lines st + blank_lines st
  /\ total_files st = Z.of_nat (List.length (List.filter (has_content root fs) files))
  /\ 0 <= total_files st <= Z.of_nat (List.length files)
  /\ 0 <= total_lines st.
Proof.
  unfold count_lines.
  match goal with |- context [fold_left _ files ?s0] =>
    destruct (count_files_counts root fs files s0) as (Hc & Hf & Hl) end.
  cbn zeta in *. unfold counted in Hc. cbn in Hc, Hf, Hl.
  split; [lia|]. split; [exact Hf|]. split; [|exact Hl].
  rewrite Hf. pose proof (List.filter_length_le (has_content root fs) files). lia.
Qed.

(** ** The ignore rules *)

Lemma add_defaults_keeps (pattern : string) (defaults : list string) :
  forall patterns, In pattern patterns \/ In pattern defaults ->
  In pattern
    (fold_left
       (fun patterns pattern =>
          if existsb (String.eqb pattern) patterns then patterns else patterns ++ [pattern])
       defaults patterns).
Proof.
  induction defaults as [|d more IH]; intros patterns H; cbn [fold_left].
  - destruct H as [H|[]]. exact H.
  - apply IH. destruct H as [H|[<-|H]].
    + left. destruct (existsb _ patterns); [exact H | apply in_or_app; now left].
    + left. destruct (existsb (String.eqb d) patterns) eqn:He.
      * apply existsb_exists in He as (x & Hx & Heq).
        apply String.eqb_eq in Heq. now subst x.
      * apply in_or_app. right. now left.
    + now right.
Qed.

Lemma ignored_by_substring fnmatch (pattern path_str : string) (parts : list string) :
  forall patterns, In pattern patterns -> endswith "/" pattern = false ->
  contains pattern path_str = true ->
  ignored_by fnmatch patterns path_str parts = true.
Proof.
  induction patterns as [|p more IH]; intros Hin Hend Hsub; [destruct Hin|].
  cbn [ignored_by]. destruct Hin as [->|Hin].
  - rewrite Hend, Hsub. now destruct (fnmatch path_str pattern).
  - destruct (endswith "/" p).
    + destruct (existsb _ parts); [reflexivity | now apply IH].
    + destruct (fnmatch path_str p); [reflexivity|].
      destruct (contains p path_str); [reflexivity | now apply IH].
Qed.

(** A pattern is matched against the text of the whole relative path, as
    a substring: whatever patterns the workspace was made with and
    whatever [fnmatch] answers, a path inside the root whose text holds
    a default pattern anywhere - [.git] inside [.github] or
    [.gitignore], [venv] inside [myvenv.py] - is ignored. *)
Theorem defaults_ignore_by_substring (fnmatch : string -> string -> bool)
    (root : path) (ignore_patterns : list string) (relative : path) (pattern : string) :
  In pattern default_patterns ->
  contains pattern (relative_str relative) = true ->
  should_ignore fnmatch root (add_defaults ignore_patterns) (root ++ relative) = true.
Proof.
  intros Hin Hsub. unfold should_ignore.
  assert (Hrel : is_relative_to (root ++ relative) root = true).
  { induction root as [|r root IH]; [now destruct relative|].
    cbn. now rewrite String.eqb_refl, IH. }
  rewrite Hrel, List.skipn_app, List.skipn_all, Nat.sub_diag. cbn [app List.skipn].
  apply ignored_by_substring with pattern; [| |exact Hsub].
  - apply add_defaults_keeps. now right.
  - cbn in Hin. decompose [or] Hin; subst; try reflexivity. contradiction.
Qed.

Definition never_matches (name pattern : string) : bool := false.

Lemma defaults_ignore_by_substring_witness :
  should_ignore never_matches project (add_defaults ["*.log"])
                (project ++ [".github"; "workflows"; "ci.yml"]) = true
  /\ should_ignore never_matches project (add_defaults [])
                   (project ++ ["src"; "myvenv.py"]) = true.
Proof.
  split.
  - apply (defaults_ignore_by_substring never_matches project ["*.log"]
             [".github"; "workflows"; "ci.yml"] ".git");
      [cbn; tauto | reflexivity].
  - apply (defaults_ignore_by_substring never_matches project []
             ["src"; "myvenv.py"] "venv");
      [cbn; tauto | reflexivity].
Defined.

(** ** Directories made on the way to a file *)

Lemma mkdir_p_app a : forall (fs : filesystem) cur b,
  mkdir_p fs cur (a ++ b)
  = match mkdir_p fs cur a with
    | (fs1, Ok _) => mkdir_p fs1 (fold_left enter a cur) b
    | (fs1, Raise e) => (fs1, Raise e)
    end.
Proof.
  induction a as [|name more IH]; intros fs cur b; cbn [mkdir_p app fold_left]; [reflexivity|].
  destruct (kind fs (enter cur name)) as [[bytes|]|]; try reflexivity; apply IH.
Qed.

(** Making a directory keeps the directories there are. *)
Lemma dirs_kept_by_dir (fs : filesystem) (loc : path) :
  forall q, kind fs q = Some Dir -> kind (<[loc := Dir]> fs) q = Some Dir.
Proof.
  intros q Hq. destruct q as [|x q]; [reflexivity|]. cbn [kind] in *.
  destruct (decide (loc = x :: q)) as [->|Hne].
  - apply lookup_insert_eq.
  - rewrite lookup_insert_ne; [exact Hq | exact Hne].
Qed.

Lemma kind_made (fs : filesystem) (base : path) (d : string) :
  kind (<[base ++ [d] := Dir]> fs) (base ++ [d]) = Some Dir.
Proof.
  destruct (base ++ [d]) as [|x q] eqn:E; [reflexivity|]. cbn [kind]. apply lookup_insert_eq.
Qed.

Lemma kind_beside (fs : filesystem) (p q : path) (n : node) :
  p <> q -> kind (<[p := n]> fs) q = kind fs q.
Proof.
  intros Hne. destruct q as [|x q]; [reflexivity|]. cbn [kind]. now apply lookup_insert_ne.
Qed.

Lemma enter_name (cur : path) (name : string) : name <> ".." -> enter cur name = cur ++ [name].
Proof. intros H. unfold enter. apply String.eqb_neq in H. now rewrite H. Qed.

Lemma enter_up (base : path) (name : string) : enter (base ++ [name]) ".." = base.
Proof. unfold enter, up. cbn. apply removelast_last. Qed.

Lemma sibling_not_below (base : path) (d r : string) :
  d <> r -> is_relative_to (base ++ [d]) (base ++ [r]) = false.
Proof.
  intros Hne. induction base as [|x base IH]; cbn.
  - assert (H : String.eqb r d = false) by (apply String.eqb_neq; congruence).
    now rewrite H.
  - now rewrite String.eqb_refl, IH.
Qed.

Lemma below_itself (root : path) (more : path) : is_relative_to (root ++ more) root = true.
Proof.
  induction root as [|r root IH]; [now destruct more|]. cbn. now rewrite String.eqb_refl, IH.
Qed.

(** The check of [write_file] looks at the resolved path only; the
    directories are then made along the path as it was given.  For a
    workspace [base/r], a path that leaves the root and comes back,
    [../d/../r/name], passes the check, and on its way makes the
    directory [base/d] beside the root, outside the workspace, before
    the file [base/r/name] is written. *)
Theorem write_file_makes_directory_outside (base : path) (r d name : string)
    (fs : filesystem) (filepath : string) (content : list Z) (bytes : string) :
  is_absolute filepath = false ->
  parts filepath = [".."; d; ".."; r; name] ->
  d <> ".." -> r <> ".." -> name <> ".." -> d <> r ->
  namei fs [] (base ++ [r]) = Ok (base ++ [r]) ->
  kind fs (base ++ [r]) = Some Dir ->
  kind fs (base ++ [d]) = None ->
  kind fs (base ++ [r; name]) <> Some Dir ->
  Utf8.encode content = Some bytes ->
  write_file (base ++ [r]) fs filepath content
  = (<[base ++ [r; name] := File bytes]> (<[base ++ [d] := Dir]> fs), true)
  /\ is_relative_to (base ++ [d]) (base ++ [r]) = false
  /\ kind (<[base ++ [r; name] := File bytes]> (<[base ++ [d] := Dir]> fs)) (base ++ [d])
     = Some Dir.
Proof.
  intros Habs Hparts Hd Hr Hname Hdr Hroot Hrootdir Hnew Hfile Hbytes.
  set (root := base ++ [r]) in *.
  set (fs1 := <[base ++ [d] := Dir]> fs).
  assert (Hres : resolve root = root).
  { symmetry. exact (namei_resolves fs root [] root Hroot). }
  assert (Hbase : kind fs base = Some Dir).
  { apply namei_last in Hroot as (dir & _ & Hk & He).
    rewrite (enter_name _ _ Hr) in He. apply app_inj_tail in He as [<- _]. exact Hk. }
  assert (Hkeep : forall q, kind fs q = Some Dir -> kind fs1 q = Some Dir)
    by apply dirs_kept_by_dir.
  assert (Hmade : kind fs1 (base ++ [d]) = Some Dir) by apply kind_made.
  assert (Hlong : base ++ [d] <> base ++ [r; name]).
  { intros E. apply (f_equal (@List.length string)) in E.
    rewrite !List.length_app in E. cbn in E. lia. }
  assert (Hfile1 : kind fs1 (base ++ [r; name]) <> Some Dir).
  { unfold fs1. now rewrite (kind_beside fs _ _ Dir Hlong). }
  assert (Hfull : joinpath root filepath = root ++ [".."; d; ".."; r; name]).
  { unfold joinpath. now rewrite Habs, Hparts. }
  assert (E1 : enter root ".." = base) by apply enter_up.
  assert (E2 : enter base d = base ++ [d]) by now apply enter_name.
  assert (E3 : enter (base ++ [d]) ".." = base) by apply enter_up.
  assert (E4 : enter base r = root) by now apply enter_name.
  assert (E5 : enter root name = base ++ [r; name]).
  { rewrite (enter_name _ _ Hname). unfold root. now rewrite <- app_assoc. }
  assert (Hinside : inside root (joinpath root filepath) = true).
  { unfold inside, resolve. rewrite Hfull, fold_left_app.
    change (fold_left enter root []) with (resolve root). rewrite Hres.
    cbn [fold_left]. rewrite E1, E2, E3, E4, (enter_name _ _ Hname).
    apply below_itself. }
  assert (Hparent : parent (joinpath root filepath) = root ++ [".."; d; ".."; r]).
  { rewrite Hfull. unfold parent, up.
    change [".."; d; ".."; r; name] with ([".."; d; ".."; r] ++ [name]).
    rewrite app_assoc. apply removelast_last. }
  assert (Hmkdir : mkdir_p fs [] (root ++ [".."; d; ".."; r]) = (fs1, Ok tt)).
  { rewrite mkdir_p_app, (mkdir_p_existing _ _ _ _ Hroot Hrootdir).
    change (fold_left enter root []) with (resolve root). rewrite Hres.
    cbn [mkdir_p]. rewrite E1, Hbase, E2, Hnew. fold fs1.
    rewrite E3, (Hkeep _ Hbase), E4, (Hkeep _ Hrootdir). reflexivity. }
  assert (Hlookup : namei fs1 [] (joinpath root filepath) = Ok (base ++ [r; name])).
  { rewrite Hfull, namei_app, (namei_more_dirs fs fs1 _ _ _ Hkeep Hroot).
    cbn [namei]. rewrite (Hkeep _ Hrootdir), E1, (Hkeep _ Hbase), E2, Hmade, E3,
      (Hkeep _ Hbase), E4, (Hkeep _ Hrootdir), E5. reflexivity. }
  split; [|split].
  - unfold write_file, write_text. rewrite Hinside. cbn [negb].
    rewrite Hparent, Hmkdir, Hlookup, Hbytes.
    destruct (kind fs1 (base ++ [r; name])) as [[old|]|] eqn:Hk;
      [reflexivity | now contradiction Hfile1 | reflexivity].
  - now apply sibling_not_below.
  - rewrite (kind_beside fs1 _ _ (File bytes)); [exact Hmade | congruence].
Qed.

Lemma write_file_makes_directory_outside_witness :
  write_file project disk "../loot/../project/note.txt" [104; 105]
  = (<[ ["home"; "user"; "project"; "note.txt"] := File "hi" ]>
       (<[ ["home"; "user"; "loot"] := Dir ]> disk), true)
  /\ is_relative_to ["home"; "user"; "loot"] project = false.
Proof.
  destruct (write_file_makes_directory_outside ["home"; "user"] "project" "loot" "note.txt"
              disk "../loot/../project/note.txt" [104; 105] "hi")
    as (Hw & Hout & _);
    try reflexivity; try discriminate.
  split; [exact Hw | exact Hout].
Defined.

End WorkspaceMoreSpec.

(* ================================================================== *)
(** * More properties of the parser's helpers *)
(* ================================================================== *)

Module ParserMoreSpec.
Import Text Json Agent TextFacts.

Lemma count_char_sapp c (a b : string) :
  count_char c (a +:+ b) = (count_char c a + count_char c b)%nat.
Proof. induction a as [|x a IH]; cbn; [|rewrite IH; lia]; reflexivity. Qed.

Lemma lower_sapp (a b : string) : lower (a +:+ b) = lower a +:+ lower b.
Proof. induction a as [|x a IH]; cbn; [|rewrite IH]; reflexivity. Qed.

Lemma contains_inside (word pre post : string) :
  contains word (pre +:+ word +:+ post) = true.
Proof.
  induction pre as [|x pre IH].
  - cbn [String.append]. destruct (word +:+ post) eqn:E; cbn [contains];
      rewrite <- E, startswith_sapp; reflexivity.
  - change (String x pre +:+ word +:+ post) with (String x (pre +:+ word +:+ post)).
    cbn [contains]. rewrite IH. apply orb_true_r.
Qed.

(** ** The completion words *)

(** The scan for completion words is a test for substrings of the
    lower-cased reply, not for words: a reply that holds one of the five
    texts anywhere - inside [abandoned] or [unsuccessful], in any
    surroundings - counts as saying the task is done. *)
Theorem says_done_inside_any_text (word pre post : string) :
  In word done_words ->
  says_done (pre +:+ word +:+ post) = true.
Proof.
  intros Hin. unfold says_done. apply existsb_exists. exists word. split; [exact Hin|].
  rewrite !lower_sapp.
  assert (Hlow : lower word = word).
  { cbn in Hin. decompose [or] Hin; subst; try reflexivity. contradiction. }
  rewrite Hlow. apply contains_inside.
Qed.

Lemma says_done_inside_any_text_witness :
  says_done "The plan was abandoned." = true
  /\ says_done "Build unsuccessful" = true.
Proof.
  split.
  - apply (says_done_inside_any_text "done" "The plan was aban" "d."). cbn. tauto.
  - apply (says_done_inside_any_text "success" "Build un" "ful"). cbn. tauto.
Defined.

(** ** The brace counter *)

(** Opening minus closing braces of a text. *)
Definition surplus (s : string) : Z :=
  Z.of_nat (count_char "{"%char s) - Z.of_nat (count_char "}"%char s).

Lemma surplus_cons c s :
  surplus (String c s)
  = (if Ascii.eqb c "{"%char then 1 else if Ascii.eqb c "}"%char then -1 else 0) + surplus s.
Proof.
  unfold surplus. cbn [count_char].
  destruct (Ascii.eqb c "{"%char) eqn:Ho.
  - apply Ascii.eqb_eq in Ho. subst c. cbn. lia.
  - destruct (Ascii.eqb c "}"%char); lia.
Qed.

(** From a count of at least one, the walk ends where the count reaches
    zero, and not before. *)
Lemma balanced_from (s : string) : forall n r,
  1 <= n -> balanced s n = Some r ->
  (exists rest, s = r +:+ rest)
  /\ n + surplus r = 0
  /\ forall p q, r = p +:+ q -> q <> "" -> 1 <= n + surplus p.
Proof.
  induction s as [|c s IH]; intros n r Hn H; [discriminate H|].
  cbn [balanced] in H.
  assert (Hstep : forall m r', 1 <= m ->
            m = n + surplus (chr c) ->
            balanced s m = Some r' ->
            (exists rest, String c s = String c r' +:+ rest)
            /\ n + surplus (String c r') = 0
            /\ forall p q, String c r' = p +:+ q -> q <> "" -> 1 <= n + surplus p).
  { intros m r' Hm Hmn Hb. destruct (IH m r' Hm Hb) as ((rest & ->) & Hzero & Hmin).
    unfold chr in Hmn. rewrite surplus_cons in Hmn. change (surplus "") with 0 in Hmn.
    split; [now exists rest|]. split.
    - rewrite surplus_cons. lia.
    - intros p q Hpq Hq. destruct p as [|x p].
      + change (surplus "") with 0. lia.
      + cbn [String.append] in Hpq. injection Hpq as -> Hpq.
        specialize (Hmin p q Hpq Hq). rewrite surplus_cons. lia. }
  unfold chr in Hstep. rewrite surplus_cons in Hstep. change (surplus "") with 0 in Hstep.
  destruct (Ascii.eqb c "{"%char) eqn:Ho.
  - destruct (balanced s (n + 1)) as [r'|] eqn:Hb; [|discriminate H].
    injection H as <-. apply (Hstep (n + 1)); [lia | lia | exact Hb].
  - destruct (Ascii.eqb c "}"%char) eqn:Hc.
    + destruct (n - 1 =? 0) eqn:Hz.
      * injection H as <-. apply Z.eqb_eq in Hz.
        split; [exists s; reflexivity|]. split.
        -- unfold chr. rewrite surplus_cons, Ho, Hc. change (surplus "") with 0. lia.
        -- intros p q Hpq Hq. destruct p as [|x p].
           ++ change (surplus "") with 0. lia.
           ++ unfold chr in Hpq. cbn [String.append] in Hpq. injection Hpq as _ Hpq.
              destruct p; [|discriminate Hpq]. cbn in Hpq. now subst q.
      * apply Z.eqb_neq in Hz.
        destruct (balanced s (n - 1)) as [r'|] eqn:Hb; [|discriminate H].
        injection H as <-. apply (Hstep (n - 1)); [lia | lia | exact Hb].
    + destruct (balanced s n) as [r'|] eqn:Hb; [|discriminate H].
      injection H as <-. apply (Hstep n); [lia | lia | exact Hb].
Qed.

(** The text that tiers 2 and 3 hand to the JSON parser is found by
    counting braces alone: from an opening brace it is the shortest
    beginning of the text with as many closing as opening braces.  Every
    shorter beginning has more opening ones.  Quotes play no part, so a
    closing brace inside a JSON string ends the candidate early. *)
Theorem balanced_is_shortest_balanced_prefix (s r : string) :
  balanced (String "{" s) 0 = Some r ->
  (exists rest, String "{" s = r +:+ rest)
  /\ count_char "{"%char r = count_char "}"%char r
  /\ forall p q, r = p +:+ q -> p <> "" -> q <> "" ->
       (count_char "}"%char p < count_char "{"%char p)%nat.
Proof.
  intros H. cbn [balanced] in H. change (Ascii.eqb "{" "{") with true in H. cbn iota in H.
  change (0 + 1) with 1 in H.
  destruct (balanced s 1) as [r'|] eqn:Hb; [|discriminate H]. injection H as <-.
  destruct (balanced_from s 1 r' ltac:(lia) Hb) as ((rest & ->) & Hzero & Hmin).
  split; [now exists rest|]. split.
  - unfold surplus in Hzero. cbn [count_char]. change (Ascii.eqb "{" "{") with true.
    change (Ascii.eqb "{" "}") with false. cbn iota. lia.
  - intros p q Hpq Hp Hq. destruct p as [|x p]; [now contradiction Hp|].
    cbn [String.append] in Hpq. injection Hpq as <- Hpq.
    specialize (Hmin p q Hpq Hq). unfold surplus in Hmin.
    cbn [count_char]. change (Ascii.eqb "{" "{") with true.
    change (Ascii.eqb "{" "}") with false. cbn iota. lia.
Qed.

Lemma balanced_is_shortest_balanced_prefix_witness :
  balanced (dq "{'reason': 'add }', 'tool': 'list_files'}") 0 = Some (dq "{'reason': 'add }")
  /\ count_char "{"%char (dq "{'reason': 'add }") = count_char "}"%char (dq "{'reason': 'add }").
Proof.
  split; [reflexivity|].
  exact (proj1 (proj2 (balanced_is_shortest_balanced_prefix
                         (dq "'reason': 'add }', 'tool': 'list_files'}")
                         (dq "{'reason': 'add }") eq_refl))).
Defined.

(** ** The repair of a truncated object *)

Lemma count_char_repeat c n : count_char c (repeat_char c n) = n.
Proof. induction n as [|n IH]; cbn; [|rewrite Ascii.eqb_refl, IH]; reflexivity. Qed.

Lemma count_char_repeat_other c x n :
  Ascii.eqb x c = false -> count_char c (repeat_char x n) = O.
Proof. intros H. induction n as [|n IH]; cbn; [|rewrite H, IH]; reflexivity. Qed.

(** The caller's repair only appends closing braces, exactly as many as
    are missing: the repaired text begins with the original, never has
    more opening than closing braces, and has as many of each when the
    original had no closing brace too many.  A second repair changes
    nothing. *)
Theorem close_braces_evens_the_count (json_part : string) :
  (exists added, close_braces json_part = json_part +:+ repeat_char "}"%char added)
  /\ (count_char "{"%char (close_braces json_part)
      <= count_char "}"%char (close_braces json_part))%nat
  /\ ((count_char "}"%char json_part <= count_char "{"%char json_part)%nat ->
      count_char "{"%char (close_braces json_part)
      = count_char "}"%char (close_braces json_part))
  /\ close_braces (close_braces json_part) = close_braces json_part.
Proof.
  assert (Hcount : forall s : string,
            (count_char "{"%char (close_braces s) <= count_char "}"%char (close_braces s))%nat
            /\ ((count_char "}"%char s <= count_char "{"%char s)%nat ->
                count_char "{"%char (close_braces s) = count_char "}"%char (close_braces s))).
  { intros s. unfold close_braces.
    destruct (count_char "}"%char s <? count_char "{"%char s)%nat eqn:Hlt.
    - apply Nat.ltb_lt in Hlt.
      rewrite !count_char_sapp, count_char_repeat,
        (count_char_repeat_other "{"%char "}"%char _ eq_refl). lia.
    - apply Nat.ltb_ge in Hlt. lia. }
  split; [|split; [|split]].
  - unfold close_braces. destruct (_ <? _)%nat.
    + eexists. reflexivity.
    + exists O. now rewrite sapp_nil_r.
  - apply Hcount.
  - apply Hcount.
  - destruct (Hcount json_part) as [Hle _].
    unfold close_braces at 1. apply Nat.ltb_ge in Hle. now rewrite Hle.
Qed.

Lemma close_braces_evens_the_count_witness :
  close_braces (dq "{'tool': 'read_file', 'parameters': {'filepath': 'a.py'")
  = dq "{'tool': 'read_file', 'parameters': {'filepath': 'a.py'}}"
  /\ count_char "{"%char
       (close_braces (dq "{'tool': 'read_file', 'parameters': {'filepath': 'a.py'"))
     = count_char "}"%char
         (close_braces (dq "{'tool': 'read_file', 'parameters': {'filepath': 'a.py'")).
Proof.
  split; [vm_compute; reflexivity|].
  apply (proj1 (proj2 (proj2 (close_braces_evens_the_count
                                (dq "{'tool': 'read_file', 'parameters': {'filepath': 'a.py'"))))).
  vm_compute. lia.
Defined.

End ParserMoreSpec.

(* ================================================================== *)
(** * More properties of the loop *)
(* ================================================================== *)

Module LoopMoreSpec.
Import Text Json Agent LoopSpec.

(** Whether the roles of a list of messages alternate, beginning with
    the assistant's or the user's. *)
Fixpoint takes_turns (assistant_next : bool) (history : list Message) : bool :=
  match history with
  | [] => true
  | m :: more =>
      String.eqb (role m) (if assistant_next then "assistant" else "user")
      && takes_turns (negb assistant_next) more
  end.

Lemma takes_turns_app_any (a b : list Message) : forall e,
  takes_turns e (a ++ b)
  = takes_turns e a && takes_turns (if Nat.even (List.length a) then e else negb e) b.
Proof.
  induction a as [|x a IH]; intros e; [reflexivity|].
  cbn [app takes_turns List.length]. rewrite IH, Nat.even_succ, <- Nat.negb_even.
  destruct (Nat.even (List.length a)); cbn [negb]; rewrite ?negb_involutive, andb_assoc;
    reflexivity.
Qed.

Lemma takes_turns_app (a b : list Message) e :
  Nat.even (List.length a) = true ->
  takes_turns e (a ++ b) = takes_turns e a && takes_turns e b.
Proof. intros H. now rewrite takes_turns_app_any, H. Qed.

Section Conversation.

Variable World : Type.
Variable llm_generate : World -> list Message -> World * LLMResponse.
Variable _exec_tool : World -> ToolCall -> Z -> Z -> World * string.
Variable system_prompt workspace_name : string.
Variable format_value : json -> string.

Local Abbreviation state := (state World).
Local Abbreviation exec_all := (exec_all World _exec_tool format_value).
Local Abbreviation turn_body := (turn_body World llm_generate _exec_tool format_value).
Local Abbreviation turn_loop := (turn_loop World llm_generate _exec_tool format_value).
Local Abbreviation execute_task :=
  (execute_task World llm_generate _exec_tool system_prompt workspace_name format_value).

(** One turn adds the reply and, when the loop goes on, the results. *)
Lemma turn_body_messages max_turns turn (st : state) :
  let st' := fst (turn_body max_turns turn st) in
  if snd (turn_body max_turns turn st)
  then exists reply results,
         messages _ st' = messages _ st ++ [mkMessage "assistant" reply; mkMessage "user" results]
  else messages _ st' = messages _ st
       \/ exists reply, messages _ st' = messages _ st ++ [mkMessage "assistant" reply].
Proof.
  unfold Agent.turn_body. cbn [world messages log].
  destruct (llm_generate _ _) as [w response].
  destruct (success response); cbn [negb]; [|left; reflexivity].
  assert (Hblock : forall tool_calls st0,
            messages _ (fst (no_tool_calls_block World (response_content response)
                                                 tool_calls st0))
            = messages _ st0).
  { intros tool_calls st0. unfold no_tool_calls_block.
    destruct tool_calls; [|reflexivity].
    destruct (has_marker _); [|reflexivity].
    destruct (recover _ _); destruct (says_done _); reflexivity. }
  match goal with |- context [no_tool_calls_block World ?a ?t ?s] =>
    specialize (Hblock t s); destruct (no_tool_calls_block World a t s) as [st1 r] end.
  cbn [fst messages append_message set_world] in Hblock.
  destruct r as [tool_calls|].
  - destruct (Agent.exec_all _ _ _ _ _ _ _ _) as [w' results].
    destruct results as [|x xs]; cbn [fst snd messages append_message set_world].
    + right. eexists. exact Hblock.
    + do 2 eexists. rewrite Hblock, <- app_assoc. reflexivity.
  - cbn [fst snd]. right. eexists. exact Hblock.
Qed.

Lemma turn_loop_messages remaining : forall max_turns turn (st : state) (added : list Message),
  Nat.even (List.length added) = true ->
  takes_turns true added = true ->
  (List.length added <= 2 * Z.to_nat (turn - 1))%nat -> 1 <= turn ->
  forall base, messages _ st = base ++ added ->
  exists added',
    messages _ (fst (turn_loop remaining max_turns turn st)) = base ++ added'
    /\ takes_turns true added' = true
    /\ (List.length added' <= 2 * (Z.to_nat (turn - 1) + remaining))%nat.
Proof.
  induction remaining as [|n IH]; intros max_turns turn st added Hev Halt Hlen Hturn base Hm.
  - exists added. cbn. split; [exact Hm|]. split; [exact Halt | lia].
  - cbn [Agent.turn_loop].
    pose proof (turn_body_messages max_turns turn st) as Hb. cbn zeta in Hb.
    destruct (turn_body max_turns turn st) as [st1 goes_on]. cbn [fst snd] in Hb.
    destruct goes_on.
    + destruct Hb as (reply & results & Hb).
      destruct (IH max_turns (turn + 1) st1
                   (added ++ [mkMessage "assistant" reply; mkMessage "user" results]))
        with (base := base) as (added' & Hm' & Halt' & Hlen').
      * rewrite List.length_app. cbn [List.length].
        rewrite Nat.add_comm. cbn. exact Hev.
      * rewrite takes_turns_app by exact Hev. now rewrite Halt.
      * rewrite List.length_app. cbn [List.length].
        replace (turn + 1 - 1) with (turn - 1 + 1) by lia.
        rewrite Z2Nat.inj_add by lia. cbn. lia.
      * lia.
      * now rewrite Hb, Hm, <- app_assoc.
      * exists added'. split; [exact Hm'|]. split; [exact Halt'|].
        replace (turn + 1 - 1) with (turn - 1 + 1) in Hlen' by lia.
        rewrite Z2Nat.inj_add in Hlen' by lia. cbn in Hlen'. lia.
    + cbn [fst]. destruct Hb as [Hb | (reply & Hb)].
      * exists added. split; [now rewrite Hb|]. split; [exact Halt | lia].
      * exists (added ++ [mkMessage "assistant" reply]). split; [|split].
        -- now rewrite Hb, Hm, <- app_assoc.
        -- rewrite takes_turns_app by exact Hev. now rewrite Halt.
        -- rewrite List.length_app. cbn [List.length]. lia.
Qed.

(** The conversation only grows.  The system prompt and the task stay
    its first two messages; what follows alternates between a reply of
    the model and a user message with the tool results, beginning with
    a reply, and a run of [max_turns] turns adds at most two messages a
    turn.  No message is ever sent under another role. *)
Theorem conversation_takes_turns (task : string) (max_turns : Z) (w : World) :
  exists added,
    messages _ (fst (execute_task task max_turns w))
    = [ mkMessage "system" system_prompt;
        mkMessage "user" ("Task: " +:+ task +:+ "\nWorkspace: " +:+ workspace_name) ] ++ added
    /\ takes_turns true added = true
    /\ (List.length added <= 2 * Z.to_nat max_turns)%nat.
Proof.
  unfold Agent.execute_task.
  destruct (turn_loop_messages (Z.to_nat max_turns) max_turns 1
              (initial_state World system_prompt workspace_name task w) [])
    with (base := [ mkMessage "system" system_prompt;
                    mkMessage "user" ("Task: " +:+ task +:+ "\nWorkspace: " +:+ workspace_name) ])
    as (added & Hm & Halt & Hlen); try reflexivity; try (cbn; lia).
  destruct (turn_loop _ _ _ _) as [st how]. cbn [fst messages log] in *.
  exists added. split; [exact Hm|]. split; [exact Halt|]. cbn in Hlen. lia.
Qed.



End Conversation.




End LoopMoreSpec.

(* ================================================================== *)
(** * Properties of the word wrap *)
(* ================================================================== *)

Module UiSpec.
Import Text WorkspaceMore Ui.

(** A word as [split] gives it: not empty, no white space in it. *)
Definition is_word (w : list Z) : Prop :=
  w <> [] /\ forallb (fun c => negb (isspace c)) w = true.

Lemma split_whitespace_go_words (s : list Z) : forall cur,
  forallb (fun c => negb (isspace c)) cur = true ->
  Forall is_word (split_whitespace_go s cur).
Proof.
  induction s as [|c s IH]; intros cur Hcur; cbn [split_whitespace_go].
  - destruct cur as [|x cur]; [constructor|]. constructor; [|constructor].
    split; [discriminate | exact Hcur].
  - destruct (isspace c) eqn:Hc.
    + destruct cur as [|x cur]; [now apply IH|].
      constructor; [split; [discriminate | exact Hcur] | now apply IH].
    + apply IH. rewrite forallb_app, Hcur. cbn. now rewrite Hc.
Qed.

Lemma split_whitespace_words (s : list Z) : Forall is_word (split_whitespace s).
Proof. now apply split_whitespace_go_words. Qed.

(** Whether a text has a character that is not white space. *)
Definition has_ink (s : list Z) : bool := existsb (fun c => negb (isspace c)) s.

Lemma rstrip_text_ink (s : list Z) : has_ink s = true -> rstrip_text s <> [].
Proof.
  induction s as [|c s IH]; [discriminate|]. cbn [has_ink existsb rstrip_text].
  intros H. destruct (rstrip_text s) as [|x r] eqn:Hr; [|discriminate].
  destruct (isspace c); [|discriminate]. cbn in H. now contradiction (IH H).
Qed.

Lemma rstrip_text_blank (s : list Z) : has_ink s = false -> rstrip_text s = [].
Proof.
  induction s as [|c s IH]; [reflexivity|]. cbn [has_ink existsb rstrip_text].
  intros H. apply orb_false_elim in H as [Hc Hs]. rewrite (IH Hs).
  apply negb_false_iff in Hc. now rewrite Hc.
Qed.

Lemma word_has_ink (w : list Z) : is_word w -> has_ink w = true.
Proof.
  intros [Hne Hall]. destruct w as [|c w]; [now contradiction Hne|].
  cbn in Hall |- *. apply andb_prop in Hall as [Hc _]. now rewrite Hc.
Qed.

Lemma has_ink_app (a b : list Z) : has_ink (a ++ b) = has_ink a || has_ink b.
Proof. apply existsb_app. Qed.

(** The last test of the loop: only the bare margin is not printed. *)
Lemma last_line (body : list Z) :
  wrap_words [] (margin ++ body) = if has_ink body then [margin ++ body] else [].
Proof.
  cbn [wrap_words]. unfold strip_text, margin. cbn [app lstrip_text].
  change (isspace bar) with false. cbn iota.
  change (rstrip_text (bar :: 32 :: 32 :: body))
    with (match rstrip_text (32 :: 32 :: body) with
          | [] => [bar]
          | r => bar :: r
          end).
  destruct (has_ink body) eqn:Hink.
  - assert (H : has_ink (32 :: 32 :: body) = true) by exact Hink.
    apply rstrip_text_ink in H. destruct (rstrip_text (32 :: 32 :: body)); [now contradiction H|].
    reflexivity.
  - assert (H : has_ink (32 :: 32 :: body) = false) by exact Hink.
    rewrite (rstrip_text_blank _ H). reflexivity.
Qed.

(** What a printed line may be: the margin and then at most 67
    characters, or the margin and one word. *)
Definition fits (line : list Z) : Prop :=
  exists body, line = margin ++ body
    /\ ((List.length line <= 70)%nat \/ exists w, is_word w /\ body = w ++ [32]).

Definition spaced (words : list (list Z)) : list Z :=
  concat (map (fun w => w ++ [32]) words).

Lemma wrap_words_spec (words : list (list Z)) : forall body,
  Forall is_word words ->
  (body = [] \/ has_ink body = true) ->
  fits (margin ++ body) ->
  concat (map (List.skipn 3) (wrap_words words (margin ++ body))) = body ++ spaced words
  /\ Forall fits (wrap_words words (margin ++ body)).
Proof.
  induction words as [|word more IH]; intros body Hwords Hbody Hfits.
  - rewrite last_line. unfold spaced. cbn [map concat]. rewrite app_nil_r.
    destruct Hbody as [->|Hink].
    + cbn. split; [reflexivity | constructor].
    + rewrite Hink. cbn. rewrite app_nil_r. split; [reflexivity|]. now constructor.
  - apply Forall_cons_iff in Hwords as [Hword Hmore].
    assert (Hink : forall b, has_ink (b ++ word ++ [32]) = true).
    { intros b. rewrite !has_ink_app, (word_has_ink _ Hword). apply orb_true_r. }
    cbn [wrap_words].
    destruct (70 <? _) eqn:Hlong.
    + destruct (IH (word ++ [32]) Hmore) as (Hcat & Hall).
      * right. apply (Hink []).
      * exists (word ++ [32]). split; [reflexivity|]. right. now exists word.
      * split.
        -- cbn [map concat]. rewrite Hcat. unfold spaced. cbn [map concat margin app List.skipn].
           now rewrite <- app_assoc.
        -- constructor; [exact Hfits | exact Hall].
    + apply Z.ltb_ge in Hlong.
      rewrite <- app_assoc.
      destruct (IH (body ++ word ++ [32]) Hmore) as (Hcat & Hall).
      * right. apply Hink.
      * exists (body ++ word ++ [32]). split; [reflexivity|]. left.
        rewrite !List.length_app in *. cbn [List.length] in *. lia.
      * split; [|exact Hall].
        rewrite Hcat. unfold spaced. cbn [map concat]. now rewrite <- !app_assoc.
Qed.

(** The word wrap of a thinking step loses nothing and keeps the order:
    the printed lines, margins taken off, are the words of the
    description, each followed by one space.  Every line begins with the
    margin and is at most 70 characters long, unless it holds a single
    word that is longer; a description without a word prints no line. *)
Theorem wrap_keeps_words_and_width (description : list Z) :
  concat (map (List.skipn 3) (wrapped_description description))
  = spaced (split_whitespace description)
  /\ Forall fits (wrapped_description description)
  /\ (split_whitespace description = [] -> wrapped_description description = []).
Proof.
  unfold wrapped_description.
  destruct (wrap_words_spec (split_whitespace description) [] (split_whitespace_words _))
    as (Hcat & Hall).
  - now left.
  - exists []. split; [reflexivity|]. left. cbn. lia.
  - rewrite app_nil_r in Hcat, Hall. split; [exact Hcat|]. split; [exact Hall|].
    intros ->. reflexivity.
Qed.

Lemma wrap_keeps_words_and_width_witness :
  concat (map (List.skipn 3) (wrapped_description [32; 97; 98; 9; 99; 10]))
  = [97; 98; 32; 99; 32]
  /\ wrapped_description [32; 10] = [].
Proof.
  split.
  - exact (proj1 (wrap_keeps_words_and_width [32; 97; 98; 9; 99; 10])).
  - exact (proj2 (proj2 (wrap_keeps_words_and_width [32; 10])) eq_refl).
Defined.

End UiSpec.

(* ================================================================== *)
(** * Properties of the provider switch *)
(* ================================================================== *)

Module CliSpec.
Import Cli.

(** The [provider] command and [main] agree: after a switch the
    configuration is the one [main] makes for the new provider when no
    endpoint and no model are given - an endpoint or a model chosen on
    the command line is lost.  The new provider is always one that
    [validate] accepts, and a second switch brings the first provider
    back exactly when it was one of the two. *)
Theorem switch_provider_resets_to_defaults (config : Config) :
  switch_provider config = main_config (provider (switch_provider config)) None None
  /\ valid_provider (switch_provider config) = true
  /\ (provider (switch_provider (switch_provider config)) = provider config
      <-> valid_provider config = true)
  /\ switch_provider (switch_provider (switch_provider config)) = switch_provider config.
Proof.
  unfold switch_provider, main_config, valid_provider. cbn [provider endpoint model given existsb].
  destruct (String.eqb (provider config) "ollama") eqn:Ho.
  - apply String.eqb_eq in Ho. rewrite Ho. cbn. repeat split; reflexivity.
  - cbn. split; [reflexivity|]. split; [reflexivity|]. split; [|reflexivity].
    destruct (String.eqb (provider config) "lmstudio") eqn:Hl.
    + apply String.eqb_eq in Hl. rewrite Hl. split; reflexivity.
    + split; [|discriminate]. intros H. rewrite <- H in Hl. discriminate Hl.
Qed.

Definition remote : Config :=
  {| provider := "lmstudio"; endpoint := "http://gpu:8080"; model := "qwen" |}.

Lemma switch_provider_resets_to_defaults_witness :
  switch_provider remote
  = {| provider := "ollama"; endpoint := "http://localhost:11434"; model := "codellama" |}
  /\ provider (switch_provider (switch_provider remote)) = "lmstudio"
  /\ endpoint (switch_provider (switch_provider remote)) = "http://localhost:1234".
Proof.
  destruct (switch_provider_resets_to_defaults remote) as (Hmain & _ & Hback & _).
  split; [exact Hmain|]. split; [exact (proj2 Hback eq_refl) | reflexivity].
Defined.

End CliSpec.
